(** * CSV to GPX converter: a shallow embedding of [csv-to-gpx-converter.jsx]

    The development follows the source file top-down.  The host library
    the component calls (strings, [parseFloat], [Date]) is modelled first,
    from ECMA-262; then [parseTimestamp], [createGPXXML], [parseCSV] and
    [convertToGPX] are transcribed function by function; the properties of
    the specification come last. *)

From Stdlib Require Import String Ascii ZArith NArith List Bool Lia SpecFloat.
Import ListNotations.

(** ** Strings

    A JavaScript string is a sequence of UTF-16 code units. *)

Module JsString.

Definition jsstring := list N.

(** Literals of the source are written [str "..."]. *)
Definition str (s : string) : jsstring :=
  map N_of_ascii (list_ascii_of_string s).

Fixpoint jseqb (a b : jsstring) : bool :=
  match a, b with
  | [], [] => true
  | x :: a', y :: b' => (x =? y)%N && jseqb a' b'
  | _, _ => false
  end.

(** WhiteSpace and LineTerminator code points, the set [trim] and
    [parseFloat] strip. *)
Definition is_whitespace (c : N) : bool :=
  ((9 <=? c) && (c <=? 13) || (c =? 32) || (c =? 160) || (c =? 5760)
   || ((8192 <=? c) && (c <=? 8202)) || (c =? 8232) || (c =? 8233)
   || (c =? 8239) || (c =? 8287) || (c =? 12288) || (c =? 65279))%N.

Fixpoint trimStart (s : jsstring) : jsstring :=
  match s with
  | [] => []
  | c :: r => if is_whitespace c then trimStart r else s
  end.

Definition trimEnd (s : jsstring) : jsstring := rev (trimStart (rev s)).

(** [String.prototype.trim] *)
Definition trim (s : jsstring) : jsstring := trimEnd (trimStart s).

(** [String.prototype.split] with a separator of one code unit; the result
    always has at least one piece. *)
Fixpoint split (sep : N) (s : jsstring) : list jsstring :=
  match s with
  | [] => [[]]
  | c :: r =>
      if (c =? sep)%N then [] :: split sep r
      else match split sep r with
           | w :: ws => (c :: w) :: ws
           | [] => [[c]]
           end
  end.

(** [Array.prototype.join] *)
Fixpoint join (sep : jsstring) (l : list jsstring) : jsstring :=
  match l with
  | [] => []
  | [x] => x
  | x :: rest => x ++ sep ++ join sep rest
  end.

(** [Array.prototype.includes] on an array of strings *)
Definition includes (l : list jsstring) (x : jsstring) : bool :=
  existsb (jseqb x) l.

(** [s.replace] with the pattern of one double-quote character (code unit
    34), the global flag and the empty replacement: every match goes. *)
Definition remove_quotes (s : jsstring) : jsstring :=
  filter (fun c => negb (c =? 34)%N) s.

Fixpoint starts_with (p s : jsstring) : bool :=
  match p, s with
  | [], _ => true
  | x :: p', y :: s' => (x =? y)%N && starts_with p' s'
  | _ :: _, [] => false
  end.

(** [s.includes(p)]: [p] occurs in [s]. *)
Fixpoint contains (p s : jsstring) : bool :=
  starts_with p s ||
  match s with
  | [] => false
  | _ :: r => contains p r
  end.

Definition is_digit (c : N) : bool := ((48 <=? c) && (c <=? 57))%N.

Definition digit_char (d : Z) : N := Z.to_N (48 + d).

Definition digit_value (c : N) : Z := Z.of_N c - 48.

(** the longest run of decimal digits at the front, and what follows *)
Fixpoint span_digits (s : jsstring) : jsstring * jsstring :=
  match s with
  | c :: r =>
      if is_digit c then let '(ds, rest) := span_digits r in (c :: ds, rest)
      else ([], s)
  | [] => ([], [])
  end.

Definition digit_step (acc : Z) (c : N) : Z := 10 * acc + digit_value c.

Definition digits_value (ds : jsstring) : Z := fold_left digit_step ds 0%Z.

(** decimal digits of a natural number, as in [ToString] of a small
    integer *)
Fixpoint decimal_digits (fuel : nat) (n : Z) : jsstring :=
  match fuel with
  | O => []
  | S f =>
      (if (n <? 10)%Z then [] else decimal_digits f (n / 10)%Z)
      ++ [digit_char (n mod 10)%Z]
  end.

End JsString.
Import JsString.

(** ** Numbers

    The Number type is IEEE-754 binary64, here [spec_float] at precision 53
    and maximal exponent 1024. *)

Module JsNumber.

Definition number := spec_float.

Definition prec : Z := 53.
Definition emax : Z := 1024.

Definition isNaN (x : number) : bool :=
  match x with
  | S754_nan => true
  | _ => false
  end.

Definition isFinite (x : number) : bool :=
  match x with
  | S754_nan | S754_infinity _ => false
  | _ => true
  end.

Fixpoint strip_zeros (ds : jsstring) : jsstring :=
  match ds with
  | 48%N :: r => strip_zeros r
  | _ => ds
  end.

(** The Number value of the decimal [ds * 10^e], rounded to nearest, ties
    to even.  A value of [k] significant digits lies in
    [10^(k+e-1), 10^(k+e)), so the two outer tests only cut short what the
    rounding would give: beyond [10^310] every value overflows, below
    [10^-330] every value rounds to zero. *)
Definition decimal_to_double (neg : bool) (ds : jsstring) (e : Z) : number :=
  match digits_value ds with
  | Zpos m =>
      let k := Z.of_nat (length (strip_zeros ds)) in
      if (310 <? k + e)%Z then S754_infinity neg
      else if (k + e <? -330)%Z then S754_zero neg
      else if (0 <=? e)%Z then
        binary_round prec emax neg (m * Z.to_pos (10 ^ e))%positive 0
      else
        let '(q, e', l) :=
          SFdiv_core_binary prec emax (Zpos m) 0 (10 ^ (- e))%Z 0 in
        binary_round_aux prec emax neg q e' l
  | _ => S754_zero neg
  end.

(** [ExponentPart], optional: worth [0] when absent or incomplete, since
    [parseFloat] takes the longest prefix that is a literal. *)
Definition parse_exponent (s : jsstring) : Z :=
  match s with
  | c :: r =>
      if ((c =? 101) || (c =? 69))%N then
        let '(neg, r') :=
          match r with
          | 43%N :: r' => (false, r')
          | 45%N :: r' => (true, r')
          | _ => (false, r)
          end in
        match fst (span_digits r') with
        | [] => 0%Z
        | ds => if neg then (- digits_value ds)%Z else digits_value ds
        end
      else 0%Z
  | [] => 0%Z
  end.

(** The longest prefix of [s] that is a [StrUnsignedDecimalLiteral]:
    [Infinity], [digits . digits? exp?], [. digits exp?] or [digits exp?];
    NaN when there is none. *)
Definition StrUnsignedDecimalLiteral (neg : bool) (s : jsstring) : number :=
  if starts_with (str "Infinity") s then S754_infinity neg
  else
    let '(ip, r1) := span_digits s in
    match r1 with
    | 46%N :: r2 =>
        let '(fp, r3) := span_digits r2 in
        match ip ++ fp with
        | [] => S754_nan
        | ds => decimal_to_double neg ds
                  (parse_exponent r3 - Z.of_nat (length fp))
        end
    | _ =>
        match ip with
        | [] => S754_nan
        | _ => decimal_to_double neg ip (parse_exponent r1)
        end
    end.

(** [parseFloat(string)] *)
Definition parseFloat (s : jsstring) : number :=
  match trimStart s with
  | 43%N :: r => StrUnsignedDecimalLiteral false r
  | 45%N :: r => StrUnsignedDecimalLiteral true r
  | r => StrUnsignedDecimalLiteral false r
  end.

(** *** A reference [Number::toString]

    The decimal text of a Number, as ECMA-262 recommends it: the fewest
    significant digits that still read back as the same Number, the
    closest such decimal when there are several, and the layout of
    [Number::toString] around them. *)

(** [s * 10^p] against [num / den] *)
Definition scaled_compare (s p num den : Z) : comparison :=
  if (0 <=? p)%Z then (s * 10 ^ p * den ?= num)%Z
  else (s * den ?= num * 10 ^ (- p))%Z.

(** [s * 10^p] rounds to the Number whose rounding interval is
    [low / den .. high / den], ends included when the mantissa is even. *)
Definition within (even : bool) (s p low high den : Z) : bool :=
  (0 <? s)%Z &&
  match scaled_compare s p low den, scaled_compare s p high den with
  | Gt, Lt => true
  | Eq, Lt | Gt, Eq => even
  | _, _ => false
  end.

(** the distance from [s * 10^p] to [num / den], on a scale that depends
    on [p], [num] and [den] only *)
Definition scaled_distance (s p num den : Z) : Z :=
  if (0 <=? p)%Z then Z.abs (s * 10 ^ p * den - num)
  else Z.abs (s * den - num * 10 ^ (- p)).

(** The decimal [s * 10^p] with the largest [p], so the fewest digits,
    that lies within the interval, looked for from [p] downwards. *)
Fixpoint shortest_decimal (fuel : nat) (even : bool) (num low high den p : Z)
  : Z * Z :=
  match fuel with
  | O => (0, p)%Z
  | S fuel' =>
      let s0 := (if (0 <=? p) then num / (10 ^ p * den)
                 else (num * 10 ^ (- p)) / den)%Z in
      let s1 := (s0 + 1)%Z in
      let in0 := within even s0 p low high den in
      let in1 := within even s1 p low high den in
      if in0 && in1 then
        match (scaled_distance s0 p num den ?= scaled_distance s1 p num den)%Z
        with
        | Lt => (s0, p)
        | Gt => (s1, p)
        | Eq => if Z.even s0 then (s0, p) else (s1, p)
        end
      else if in0 then (s0, p)
      else if in1 then (s1, p)
      else shortest_decimal fuel' even num low high den (p - 1)%Z
  end.

(** the digits [s] and the exponent [n] of [Number::toString] for the
    positive Number [m * 2^e] *)
Definition digits_and_exponent (m : positive) (e : Z) : jsstring * Z :=
  let shift := (Z.max 0 (- e) + 2)%Z in
  let den := (2 ^ shift)%Z in
  let num := (Zpos m * 2 ^ (e + shift))%Z in
  let half_up := (2 ^ (e + shift - 1))%Z in
  let half_down :=
    (if (Zpos m =? 2 ^ (prec - 1)) && (emin prec emax <? e)
     then 2 ^ (e + shift - 2) else half_up)%Z in
  let p0 := (((Zpos (digits2_pos m) + e) * 30103) / 100000 + 2)%Z in
  let '(s, p) :=
    shortest_decimal 40 (Z.even (Zpos m)) num (num - half_down)
      (num + half_up) den p0 in
  let ds := decimal_digits 20 s in
  (ds, (Z.of_nat (length ds) + p)%Z).

Definition zeros (n : Z) : jsstring := repeat 48%N (Z.to_nat n).

(** the layout of [Number::toString] for the digits [ds] and the
    exponent [n] *)
Definition layout (ds : jsstring) (n : Z) : jsstring :=
  let k := Z.of_nat (length ds) in
  if (k <=? n)%Z && (n <=? 21)%Z then ds ++ zeros (n - k)
  else if (0 <? n)%Z && (n <=? 21)%Z then
    firstn (Z.to_nat n) ds ++ str "." ++ skipn (Z.to_nat n) ds
  else if (-6 <? n)%Z && (n <=? 0)%Z then str "0." ++ zeros (- n) ++ ds
  else
    let exponent :=
      str "e" ++ (if (n - 1 <? 0)%Z then str "-" else str "+")
      ++ decimal_digits 20 (Z.abs (n - 1)) in
    match ds with
    | [d] => [d] ++ exponent
    | d :: rest => [d] ++ str "." ++ rest ++ exponent
    | [] => exponent
    end.

Definition Number_toString (x : number) : jsstring :=
  match x with
  | S754_nan => str "NaN"
  | S754_zero _ => str "0"
  | S754_infinity s => (if s then str "-" else []) ++ str "Infinity"
  | S754_finite s m e =>
      (if s then str "-" else [])
      ++ (let '(ds, n) := digits_and_exponent m e in layout ds n)
  end.

End JsNumber.
Import JsNumber.

(** ** Dates

    A Date holds a time value: milliseconds since the epoch, at most
    8.64e15 in absolute value, or NaN (here [None]).  The day and calendar
    arithmetic is ECMA-262's (Day Number and Time within Day, Year Number,
    Month Number, Date Number). *)

Module JsDate.

Local Open Scope Z_scope.

Definition msPerDay : Z := 86400000.

Definition Day (t : Z) : Z := t / msPerDay.
Definition TimeWithinDay (t : Z) : Z := t mod msPerDay.

Definition DayFromYear (y : Z) : Z :=
  365 * (y - 1970) + (y - 1969) / 4 - (y - 1901) / 100 + (y - 1601) / 400.

Definition DaysInYear (y : Z) : Z :=
  if negb (y mod 4 =? 0) then 365
  else if negb (y mod 100 =? 0) then 366
  else if negb (y mod 400 =? 0) then 365
  else 366.

(** The largest [y] with [DayFromYear y <= Day t]: a first guess from the
    mean length of a year, moved by one where needed. *)
Definition YearFromTime (t : Z) : Z :=
  let d := Day t in
  let y := 1970 + (400 * d) / 146097 in
  if d <? DayFromYear y then y - 1
  else if DayFromYear (y + 1) <=? d then y + 1
  else y.

Definition DayWithinYear (t : Z) : Z := Day t - DayFromYear (YearFromTime t).

Definition InLeapYear (t : Z) : Z :=
  if DaysInYear (YearFromTime t) =? 366 then 1 else 0.

(** Month Number, [0] for January *)
Definition MonthFromTime (t : Z) : Z :=
  let d := DayWithinYear t in
  let leap := InLeapYear t in
  if d <? 31 then 0
  else if d <? 59 + leap then 1
  else if d <? 90 + leap then 2
  else if d <? 120 + leap then 3
  else if d <? 151 + leap then 4
  else if d <? 181 + leap then 5
  else if d <? 212 + leap then 6
  else if d <? 243 + leap then 7
  else if d <? 273 + leap then 8
  else if d <? 304 + leap then 9
  else if d <? 334 + leap then 10
  else 11.

(** the day within the year on which month [m] starts *)
Definition month_start (m leap : Z) : Z :=
  match m with
  | 0 => 0
  | 1 => 31
  | 2 => 59 + leap
  | 3 => 90 + leap
  | 4 => 120 + leap
  | 5 => 151 + leap
  | 6 => 181 + leap
  | 7 => 212 + leap
  | 8 => 243 + leap
  | 9 => 273 + leap
  | 10 => 304 + leap
  | _ => 334 + leap
  end.

(** Date Number, [1] for the first day of the month *)
Definition DateFromTime (t : Z) : Z :=
  DayWithinYear t - month_start (MonthFromTime t) (InLeapYear t) + 1.

Definition HourFromTime (t : Z) : Z := (t / 3600000) mod 24.
Definition MinFromTime (t : Z) : Z := (t / 60000) mod 60.
Definition SecFromTime (t : Z) : Z := (t / 1000) mod 60.
Definition msFromTime (t : Z) : Z := t mod 1000.

Definition MakeTime (hour min sec ms : Z) : Z :=
  hour * 3600000 + min * 60000 + sec * 1000 + ms.

(** [MakeDay] for a month in [0..11] *)
Definition MakeDay (year month date : Z) : Z :=
  DayFromYear year
  + month_start month (if DaysInYear year =? 366 then 1 else 0)
  + date - 1.

Definition MakeDate (day time : Z) : Z := day * msPerDay + time.

(** [TimeClip]: a time value out of range is NaN. *)
Definition TimeClip (t : option Z) : option Z :=
  match t with
  | Some v => if Z.abs v <=? 8640000000000000 then Some v else None
  | None => None
  end.

(** [n] as exactly [width] decimal digits *)
Fixpoint pad (width : nat) (n : Z) : jsstring :=
  match width with
  | O => []
  | S w => pad w (n / 10) ++ [digit_char (n mod 10)]
  end.

(** The year of the date-time string format: four digits from 0000 to
    9999, otherwise a sign and six digits. *)
Definition year_string (y : Z) : jsstring :=
  if (0 <=? y) && (y <=? 9999) then pad 4 y
  else (if y <? 0 then str "-" else str "+") ++ pad 6 (Z.abs y).

(** [Date.prototype.toISOString] on a finite time value *)
Definition ISOString (t : Z) : jsstring :=
  year_string (YearFromTime t) ++ str "-" ++ pad 2 (MonthFromTime t + 1)
  ++ str "-" ++ pad 2 (DateFromTime t)
  ++ str "T" ++ pad 2 (HourFromTime t) ++ str ":" ++ pad 2 (MinFromTime t)
  ++ str ":" ++ pad 2 (SecFromTime t) ++ str "." ++ pad 3 (msFromTime t)
  ++ str "Z".

End JsDate.
Import JsDate.

(** *** A reference reader of the date-time string format

    What [Date.parse] accepts is left to the host, except for the
    date-time string format [YYYY-MM-DDTHH:mm:ss.sssZ] of ECMA-262.
    [iso_parse] reads the part of that format which does not depend on
    the local time zone: a date alone, or a date and a time closed by [Z]
    or by a numeric offset, [+HH:mm] or, as hosts also accept, [+HHmm].
    Everything else is NaN for it. *)

Module IsoFormat.

Local Open Scope Z_scope.

(** exactly [n] decimal digits *)
Fixpoint read_digits (n : nat) (s : jsstring) (acc : Z)
  : option (Z * jsstring) :=
  match n with
  | O => Some (acc, s)
  | S n' =>
      match s with
      | c :: r =>
          if is_digit c then read_digits n' r (10 * acc + digit_value c)
          else None
      | [] => None
      end
  end.

(** the next code unit, when it is [c] *)
Definition expect (c : N) (s : jsstring) : option jsstring :=
  match s with
  | x :: r => if (x =? c)%N then Some r else None
  | [] => None
  end.

(** four digits, or a sign and six digits; [-000000] is not a year *)
Definition read_year (s : jsstring) : option (Z * jsstring) :=
  match expect 43 s with
  | Some r => read_digits 6 r 0
  | None =>
      match expect 45 s with
      | Some r =>
          match read_digits 6 r 0 with
          | Some (y, r') => if y =? 0 then None else Some (- y, r')
          | None => None
          end
      | None => read_digits 4 s 0
      end
  end.

(** [-MM] and [-DD], each optional; a missing field is [1]. *)
Definition read_month_day (s : jsstring) : option (Z * Z * jsstring) :=
  match expect 45 s with
  | None => Some (1, 1, s)
  | Some r =>
      match read_digits 2 r 0 with
      | None => None
      | Some (m, r') =>
          match expect 45 r' with
          | None => Some (m, 1, r')
          | Some r'' =>
              match read_digits 2 r'' 0 with
              | Some (d, r3) => Some (m, d, r3)
              | None => None
              end
          end
      end
  end.

(** [.sss], optional *)
Definition read_ms (s : jsstring) : option (Z * jsstring) :=
  match expect 46 s with
  | None => Some (0, s)
  | Some r => read_digits 3 r 0
  end.

(** [:ss] and then [.sss], optional *)
Definition read_seconds (s : jsstring) : option (Z * Z * jsstring) :=
  match expect 58 s with
  | None => Some (0, 0, s)
  | Some r =>
      match read_digits 2 r 0 with
      | None => None
      | Some (sec, r') =>
          match read_ms r' with
          | Some (ms, r'') => Some (sec, ms, r'')
          | None => None
          end
      end
  end.

(** [HH:mm], then the seconds *)
Definition read_time (s : jsstring) : option (Z * Z * Z * Z * jsstring) :=
  match read_digits 2 s 0 with
  | None => None
  | Some (h, r) =>
      match expect 58 r with
      | None => None
      | Some r' =>
          match read_digits 2 r' 0 with
          | None => None
          | Some (mi, r'') =>
              match read_seconds r'' with
              | Some (sec, ms, r3) => Some (h, mi, sec, ms, r3)
              | None => None
              end
          end
      end
  end.

(** [HH:mm] or [HHmm] to the end of the string, in minutes *)
Definition read_hhmm (s : jsstring) : option Z :=
  match read_digits 2 s 0 with
  | None => None
  | Some (h, r) =>
      let r' := match expect 58 r with Some x => x | None => r end in
      match read_digits 2 r' 0 with
      | Some (mi, []) =>
          if (h <=? 23) && (mi <=? 59) then Some (h * 60 + mi) else None
      | _ => None
      end
  end.

(** the offset from UTC in minutes; it must close the string *)
Definition read_offset (s : jsstring) : option Z :=
  match expect 90 s with
  | Some r => match r with [] => Some 0 | _ => None end
  | None =>
      match expect 43 s with
      | Some r => read_hhmm r
      | None =>
          match expect 45 s with
          | Some r => option_map Z.opp (read_hhmm r)
          | None => None
          end
      end
  end.

Definition DaysInMonth (y m : Z) : Z :=
  let leap := if DaysInYear y =? 366 then 1 else 0 in
  if m =? 12 then 31 else month_start m leap - month_start (m - 1) leap.

Definition valid_date (y m d : Z) : bool :=
  (1 <=? m) && (m <=? 12) && (1 <=? d) && (d <=? DaysInMonth y m).

Definition valid_time (h mi sec ms : Z) : bool :=
  ((h <=? 23) && (mi <=? 59) && (sec <=? 59))
  || ((h =? 24) && (mi =? 0) && (sec =? 0) && (ms =? 0)).

Definition iso_parse (s : jsstring) : option Z :=
  match read_year s with
  | None => None
  | Some (y, r) =>
      match read_month_day r with
      | None => None
      | Some (m, d, r') =>
          if valid_date y m d then
            match r' with
            | [] => Some (MakeDate (MakeDay y (m - 1) d) 0)
            | _ =>
                match expect 84 r' with
                | None => None
                | Some r'' =>
                    match read_time r'' with
                    | None => None
                    | Some (h, mi, sec, ms, r3) =>
                        match read_offset r3 with
                        | None => None
                        | Some off =>
                            if valid_time h mi sec ms then
                              Some (MakeDate (MakeDay y (m - 1) d)
                                             (MakeTime h mi sec ms)
                                    - off * 60000)
                            else None
                        end
                    end
                end
            end
          else None
      end
  end.

End IsoFormat.
Import IsoFormat.

(** ** Values, exceptions and objects *)

(** The values a row holds: a string, or [undefined] where an array is
    read past its end or an object has no such property. *)
Inductive value :=
  | undefined
  | string_value (s : jsstring).

Definition ToString (v : value) : jsstring :=
  match v with
  | undefined => str "undefined"
  | string_value s => s
  end.

Record Error := { message : jsstring }.

(** How a call ends: it returns, or it throws. *)
Inductive completion (A : Type) :=
  | Return (a : A)
  | Throw (e : Error).
Arguments Return {A} a.
Arguments Throw {A} e.

(** An object as its assignments, the latest first; reading a property
    finds the latest one. *)
Definition object := list (jsstring * value).

Fixpoint obj_get (o : object) (k : jsstring) : value :=
  match o with
  | [] => undefined
  | (k', v) :: r => if jseqb k k' then v else obj_get r k
  end.

(** [o[k] = v].  Assigning a primitive to [__proto__] goes to the setter
    inherited from [Object.prototype], which ignores it. *)
Definition obj_set (o : object) (k : jsstring) (v : value) : object :=
  if jseqb k (str "__proto__") then o else (k, v) :: o.

(** [a[i]] *)
Definition array_get (a : list jsstring) (i : nat) : value :=
  match nth_error a i with
  | Some s => string_value s
  | None => undefined
  end.

(** [ToString] of an array index or a length *)
Definition nat_string (n : nat) : jsstring :=
  decimal_digits (S n) (Z.of_nat n).

Definition quote : jsstring := [34%N].
Definition newline : jsstring := [10%N].

(** ** The component *)

Record TrackPoint := {
  timestamp : jsstring;
  latitude : number;
  longitude : number;
  sog_kts : number;
  cog : number;
  hdg_true : number;
  heel : number;
  trim : number
}.

(** The regular expression of [parseTimestamp], a dot, three digits kept
    as group 1, further digits, [Z], end of input: whether it matches at
    the very start of [s], and group 1. *)
Definition match_ms (s : jsstring) : option jsstring :=
  match s with
  | d :: a :: b :: c :: r =>
      if (d =? 46)%N && is_digit a && is_digit b && is_digit c
         && jseqb (snd (span_digits r)) (str "Z")
      then Some [a; b; c]
      else None
  | _ => None
  end.

(** [s.replace] with that expression and [.$1Z]: the leftmost match is
    rewritten, a string without a match is returned as it is. *)
Fixpoint replace_ms (s : jsstring) : jsstring :=
  match match_ms s with
  | Some g => str "." ++ g ++ str "Z"
  | None =>
      match s with
      | [] => []
      | c :: r => c :: replace_ms r
      end
  end.

(** Whether [s] is [.csv] in any letter case and nothing more: the
    expression of [convertToGPX], flag [i], matching at the start of [s]. *)
Definition match_csv (s : jsstring) : bool :=
  match s with
  | [d; c; s'; v] =>
      ((d =? 46) && ((c =? 99) || (c =? 67)) && ((s' =? 115) || (s' =? 83))
       && ((v =? 118) || (v =? 86)))%N
  | _ => false
  end.

(** [name.replace] with that expression and [_converted.gpx] *)
Fixpoint replace_csv (name : jsstring) : jsstring :=
  if match_csv name then str "_converted.gpx"
  else
    match name with
    | [] => []
    | c :: r => c :: replace_csv r
    end.

Definition expectedColumns : list jsstring :=
  map str ["timestamp"; "latitude"; "longitude"; "sog_kts"; "cog";
           "hdg_true"; "heel"; "trim"]%string.

(** What the loop of [parseCSV] has built so far: the points pushed and
    the warnings written to the console. *)
Record loop_state := {
  points : list TrackPoint;
  console : list jsstring
}.

Definition push (st : loop_state) (p : TrackPoint) : loop_state :=
  {| points := points st ++ [p]; console := console st |}.

Definition console_warn (st : loop_state) (msg : jsstring) : loop_state :=
  {| points := points st; console := console st ++ [msg] |}.

(** [headers.forEach((header, index) => { row[header] = values[index] })] *)
Fixpoint fill_row (headers values : list jsstring) (index : nat)
  (row : object) : object :=
  match headers with
  | [] => row
  | header :: rest =>
      fill_row rest values (S index)
        (obj_set row header (array_get values index))
  end.

(** [line.split(',').map(v => v.trim().replace(...))], for the header as
    for the data rows *)
Definition cells (line : jsstring) : list jsstring :=
  map (fun v => remove_quotes (JsString.trim v)) (split 44 line).

Section Converter.

(** The host's [Date.parse]: the time value of a string, [None] for NaN. *)
Variable DateParse : jsstring -> option Z.

(** The host's [Number::toString], which the template literals apply. *)
Variable NumberToString : number -> jsstring.

(** [new Date(v)], as its time value *)
Definition newDate (v : value) : option Z :=
  match v with
  | string_value s => TimeClip (DateParse s)
  | undefined => None
  end.

(** [dt.toISOString()], a RangeError on an invalid date *)
Definition toISOString (dt : option Z) : completion jsstring :=
  match dt with
  | Some t => Return (ISOString t)
  | None => Throw {| message := str "Invalid time value" |}
  end.

Definition parseTimestamp (timestampStr : value) : completion jsstring :=
  let try :=
    let dt := newDate timestampStr in
    match toISOString dt with
    | Return iso => Return (replace_ms iso)
    | Throw e => Throw e
    end in
  match try with
  | Return r => Return r
  | Throw _ =>
      Throw {| message :=
                 str "Invalid timestamp format: " ++ ToString timestampStr |}
  end.

Definition createGPXXML (pts : list TrackPoint) : jsstring :=
  let gpxContent :=
    str "<?xml version=" ++ quote ++ str "1.0" ++ quote
    ++ str " encoding=" ++ quote ++ str "UTF-8" ++ quote ++ str "?>"
    ++ newline
    ++ str "<gpx version=" ++ quote ++ str "1.1" ++ quote
    ++ str " creator=" ++ quote ++ str "csv_to_gpx_converter_web" ++ quote
    ++ str " xmlns=" ++ quote ++ str "http://www.topografix.com/GPX/1/1"
    ++ quote ++ str ">" ++ newline
    ++ str "<trk>" ++ newline
    ++ str "<trkseg>" in
  let gpxContent :=
    fold_left
      (fun gpxContent point =>
         gpxContent ++ newline
         ++ str "<trkpt lat=" ++ quote ++ NumberToString (latitude point)
         ++ quote ++ str " lon=" ++ quote
         ++ NumberToString (longitude point) ++ quote ++ str ">" ++ newline
         ++ str "<ele>" ++ NumberToString (hdg_true point) ++ str "</ele>"
         ++ newline
         ++ str "<time>" ++ timestamp point ++ str "</time>" ++ newline
         ++ str "<cog>" ++ NumberToString (cog point) ++ str "</cog>"
         ++ newline
         ++ str "<hdg_true>" ++ NumberToString (hdg_true point)
         ++ str "</hdg_true>" ++ newline
         ++ str "<heel>" ++ NumberToString (heel point) ++ str "</heel>"
         ++ newline
         ++ str "<trim>" ++ NumberToString (trim point) ++ str "</trim>"
         ++ newline
         ++ str "</trkpt>")
      pts gpxContent in
  gpxContent ++ newline
  ++ str "</trkseg>" ++ newline
  ++ str "</trk>" ++ newline
  ++ str "</gpx>".

(** The object literal of the [try] block: the fields are evaluated in
    order, and only [parseTimestamp] can throw. *)
Definition make_point (row : object) : completion TrackPoint :=
  match parseTimestamp (obj_get row (str "timestamp")) with
  | Throw e => Throw e
  | Return ts =>
      Return {|
        timestamp := ts;
        latitude := parseFloat (ToString (obj_get row (str "latitude")));
        longitude := parseFloat (ToString (obj_get row (str "longitude")));
        sog_kts := parseFloat (ToString (obj_get row (str "sog_kts")));
        cog := parseFloat (ToString (obj_get row (str "cog")));
        hdg_true := parseFloat (ToString (obj_get row (str "hdg_true")));
        heel := parseFloat (ToString (obj_get row (str "heel")));
        trim := parseFloat (ToString (obj_get row (str "trim")))
      |}
  end.

(** One turn of the [for] loop, on [lines[i]] *)
Definition loop_body (headers : list jsstring) (i : nat) (line : jsstring)
  (st : loop_state) : loop_state :=
  let values := cells line in
  if negb (length values =? length headers)%nat then st
  else
    let row := fill_row headers values 0 [] in
    match make_point row with
    | Return point =>
        if isNaN (latitude point) || isNaN (longitude point) then
          console_warn st
            (str "Skipping row " ++ nat_string (i + 1)
             ++ str ": Invalid coordinates")
        else push st point
    | Throw e =>
        console_warn st
          (str "Skipping row " ++ nat_string (i + 1) ++ str ": "
           ++ message e)
    end.

(** [for (let i = ...; i < lines.length; i++)], on the lines from [i] on *)
Fixpoint for_loop (headers : list jsstring) (rest : list jsstring) (i : nat)
  (st : loop_state) : loop_state :=
  match rest with
  | [] => st
  | line :: rest' => for_loop headers rest' (S i) (loop_body headers i line st)
  end.

(** [parseCSV] from the array [lines] on; beside the completion it gives
    the warnings written to the console. *)
Definition parseLines (lines : list jsstring)
  : completion (list TrackPoint) * list jsstring :=
  if (length lines <? 2)%nat then
    (Throw {| message :=
                str "CSV file must contain header and at least one data row" |},
     [])
  else
    let headers := cells (nth 0 lines []) in
    let missingColumns :=
      filter (fun col => negb (includes headers col)) expectedColumns in
    if (0 <? length missingColumns)%nat then
      (Throw {| message :=
                  str "CSV missing required columns: "
                  ++ join (str ", ") missingColumns |},
       [])
    else
      let st := for_loop headers (tl lines) 1 {| points := []; console := [] |} in
      if (length (points st) =? 0)%nat then
        (Throw {| message := str "No valid data points found in CSV file" |},
         console st)
      else (Return (points st), console st).

Definition parseCSV (csvText : jsstring)
  : completion (list TrackPoint) * list jsstring :=
  parseLines (split 10 (JsString.trim csvText)).

(** The uploaded file, as far as the component reads it *)
Record File := {
  name : jsstring;
  text : jsstring
}.

(** [result]: the object URL is the host's and is left out. *)
Record Result := {
  filename : jsstring;
  content : jsstring
}.

(** The state of the component that [convertToGPX] writes *)
Record State := {
  result : option Result;
  error : option jsstring;
  pointCount : nat
}.

(** [convertToGPX], from its first [set...] calls to the end of [finally] *)
Definition convertToGPX (file : option File) (st : State) : State :=
  match file with
  | None => st
  | Some file =>
      match fst (parseCSV (text file)) with
      | Return pts =>
          let gpxXML := createGPXXML pts in
          let outputFilename := replace_csv (name file) in
          {| result := Some {| filename := outputFilename; content := gpxXML |};
             error := None;
             pointCount := length pts |}
      | Throw err =>
          {| result := None;
             error := Some (message err);
             pointCount := pointCount st |}
      end
  end.

End Converter.

(** ** The rest of the component *)

(** The literal [0.514444] of [knotsToMps], as the Number it denotes *)
Definition mps_per_knot : number :=
  Eval vm_compute in parseFloat (str "0.514444").

(** [knotsToMps]: the product in binary64 *)
Definition knotsToMps (knots : number) : number :=
  SFmul prec emax knots mps_per_knot.

(** The state hooks, the event handlers and what is rendered of them.
    [convertToGPX] is asynchronous: it runs to its [await], other handlers
    may run, and it goes on with the file it was given when it started. *)
Module UI.

(** the five state hooks: [file], [converting], and [result], [error],
    [pointCount] *)
Record Component := {
  file : option File;
  converting : bool;
  state : State
}.

(** [handleFileUpload], on [event.target.files[0]] *)
Definition handleFileUpload (uploadedFile : option File) (c : Component)
  : Component :=
  match uploadedFile with
  | Some f =>
      {| file := Some f;
         converting := converting c;
         state := {| result := None; error := None; pointCount := 0 |} |}
  | None => c
  end.

(** [convertToGPX] up to [await file.text()]: nothing without a file;
    otherwise the file the callback goes on with, and the state after
    [setConverting(true)], [setError(null)], [setResult(null)] *)
Definition convert_begin (c : Component) : option (File * Component) :=
  match file c with
  | None => None
  | Some f =>
      Some (f, {| file := file c;
                  converting := true;
                  state := {| result := None;
                              error := None;
                              pointCount := pointCount (state c) |} |})
  end.

Section Host.

Variable DateParse : jsstring -> option Z.
Variable NumberToString : number -> jsstring.

(** [convertToGPX] from the [await] on, for the file [f] it holds: the
    [try] sets [result] and [pointCount], the [catch] sets [error], the
    [finally] clears [converting]. *)
Definition convert_end (f : File) (c : Component) : Component :=
  match fst (parseCSV DateParse (text f)) with
  | Return pts =>
      let gpxXML := createGPXXML NumberToString pts in
      let outputFilename := replace_csv (name f) in
      {| file := file c;
         converting := false;
         state := {| result := Some {| filename := outputFilename;
                                       content := gpxXML |};
                     error := error (state c);
                     pointCount := length pts |} |}
  | Throw err =>
      {| file := file c;
         converting := false;
         state := {| result := result (state c);
                     error := Some (message err);
                     pointCount := pointCount (state c) |} |}
  end.

(** a click on the convert button, when nothing else happens before the
    file is read *)
Definition convert (c : Component) : Component :=
  match convert_begin c with
  | None => c
  | Some (f, c') => convert_end f c'
  end.

End Host.

(** What the markup shows of the state: the name in the banner of the
    selected file, whether the convert button is disabled, the text of the
    error panel, and the count and the file name of the success panel.  A
    panel guarded by [x && ...] is there when [x] is truthy: an object
    always, a string when it is not empty. *)
Record View := {
  selected : option jsstring;
  convert_disabled : bool;
  error_panel : option jsstring;
  success_panel : option (nat * jsstring)
}.

Definition render (c : Component) : View :=
  {| selected := option_map name (file c);
     convert_disabled :=
       match file c with
       | None => true
       | Some _ => converting c
       end;
     error_panel :=
       match error (state c) with
       | Some (x :: m) => Some (x :: m)
       | _ => None
       end;
     success_panel :=
       match result (state c) with
       | Some r => Some (pointCount (state c), filename r)
       | None => None
       end |}.

End UI.

(** * The vocabulary of the specification *)

(** A string against a shape: [d] in the shape (code unit 100) stands for
    any decimal digit, every other code unit for itself. *)
Fixpoint matches_shape (shape s : jsstring) : bool :=
  match shape, s with
  | [], [] => true
  | p :: shape', c :: s' =>
      (if (p =? 100)%N then is_digit c else (c =? p)%N)
      && matches_shape shape' s'
  | _, _ => false
  end.

(** [YYYY-MM-DDTHH:mm:ss.sssZ] with a year of four digits *)
Definition basic_format (s : jsstring) : bool :=
  matches_shape (str "dddd-dd-ddTdd:dd:dd.dddZ") s.

(** the same with an expanded year, a sign and six digits *)
Definition expanded_format (s : jsstring) : bool :=
  matches_shape (str "+dddddd-dd-ddTdd:dd:dd.dddZ") s
  || matches_shape (str "-dddddd-dd-ddTdd:dd:dd.dddZ") s.

(** the string closes with a dot, exactly three digits and [Z] *)
Definition ends_ms_Z (s : jsstring) : bool :=
  matches_shape (str ".dddZ") (skipn (length s - 5) s).

(** *** Rows *)

(** the row object the loop builds for a line *)
Definition row_of (headers : list jsstring) (line : jsstring) : object :=
  fill_row headers (cells line) 0 [].

(** [row.k] *)
Definition field (headers : list jsstring) (line : jsstring) (k : string)
  : value :=
  obj_get (row_of headers line) (str k).

(** [parseFloat(row.k)] *)
Definition number_field (headers : list jsstring) (line : jsstring)
  (k : string) : number :=
  parseFloat (ToString (field headers line k)).

(** The point a line yields, if it yields one: the line has as many cells
    as the header, its timestamp is accepted, and neither coordinate is
    NaN. *)
Definition row_point (DateParse : jsstring -> option Z)
  (headers : list jsstring) (line : jsstring) : option TrackPoint :=
  if (length (cells line) =? length headers)%nat then
    match make_point DateParse (row_of headers line) with
    | Return p =>
        if isNaN (latitude p) || isNaN (longitude p) then None else Some p
    | Throw _ => None
    end
  else None.

Definition option_list {A : Type} (o : option A) : list A :=
  match o with
  | Some a => [a]
  | None => []
  end.

(** the points of the rows that survive, in the order of the rows *)
Definition survivors (DateParse : jsstring -> option Z)
  (headers : list jsstring) (rows : list jsstring) : list TrackPoint :=
  flat_map (fun line => option_list (row_point DateParse headers line)) rows.

(** the lines [parseCSV] works on *)
Definition lines_of (csvText : jsstring) : list jsstring :=
  split 10 (JsString.trim csvText).

Definition header_cells (csvText : jsstring) : list jsstring :=
  cells (nth 0 (lines_of csvText) []).

Definition data_rows (csvText : jsstring) : list jsstring :=
  tl (lines_of csvText).

Definition missing_columns (headers : list jsstring) : list jsstring :=
  filter (fun col => negb (includes headers col)) expectedColumns.

(** the three errors of [parseCSV] *)
Definition too_few_lines : Error :=
  {| message := str "CSV file must contain header and at least one data row" |}.

Definition missing_columns_error (missing : list jsstring) : Error :=
  {| message := str "CSV missing required columns: " ++ join (str ", ") missing |}.

Definition no_valid_points : Error :=
  {| message := str "No valid data points found in CSV file" |}.

(** what [parseCSV] returns or throws, the console left aside *)
Definition parse (DateParse : jsstring -> option Z) (csvText : jsstring)
  : completion (list TrackPoint) :=
  fst (parseCSV DateParse csvText).

Definition has_required_columns (headers : list jsstring) : bool :=
  forallb (includes headers) expectedColumns.

(** A data row as the specification wants it: as many cells as the
    header, a timestamp the normalizer accepts, finite coordinates. *)
Definition valid_row (DateParse : jsstring -> option Z)
  (headers : list jsstring) (line : jsstring) : Prop :=
  length (cells line) = length headers /\
  (exists ts,
      parseTimestamp DateParse (field headers line "timestamp") = Return ts) /\
  isFinite (number_field headers line "latitude") = true /\
  isFinite (number_field headers line "longitude") = true.

(** [p] is the point built from the fields of [line]. *)
Definition point_of_row (DateParse : jsstring -> option Z)
  (headers : list jsstring) (line : jsstring) (p : TrackPoint) : Prop :=
  make_point DateParse (row_of headers line) = Return p.

(** The header has the required columns and every data row is valid;
    then [parse] returns one point per data row, in the order of the rows. *)
Definition parses_every_row (DateParse : jsstring -> option Z)
  (csvText : jsstring) : Prop :=
  has_required_columns (header_cells csvText) = true ->
  Forall (valid_row DateParse (header_cells csvText)) (data_rows csvText) ->
  exists pts,
    parse DateParse csvText = Return pts /\
    length pts = length (data_rows csvText) /\
    Forall2 (point_of_row DateParse (header_cells csvText))
            (data_rows csvText) pts.

(** An input whose header lacks a required column makes [parse] throw an
    error whose message contains the name of every missing column. *)
Definition names_missing_columns (DateParse : jsstring -> option Z)
  (csvText : jsstring) : Prop :=
  has_required_columns (header_cells csvText) = false ->
  exists e,
    parse DateParse csvText = Throw e /\
    forall c, In c expectedColumns ->
              includes (header_cells csvText) c = false ->
              contains c (message e) = true.

(** A data row with a [bad] latitude or longitude is left out of the
    output and [parse] still returns, provided another row yields a point;
    and no point of the output has a [bad] coordinate. *)
Definition excludes_coordinates (bad : number -> bool)
  (DateParse : jsstring -> option Z) (csvText : jsstring) : Prop :=
  let headers := header_cells csvText in
  has_required_columns headers = true ->
  (forall before r after,
      data_rows csvText = before ++ r :: after ->
      bad (number_field headers r "latitude")
      || bad (number_field headers r "longitude") = true ->
      survivors DateParse headers (before ++ after) <> [] ->
      parse DateParse csvText
      = Return (survivors DateParse headers (before ++ after)))
  /\ (forall pts,
         parse DateParse csvText = Return pts ->
         Forall (fun p => bad (latitude p) = false
                          /\ bad (longitude p) = false) pts).

Definition not_finite (x : number) : bool := negb (isFinite x).

(** *** Timestamps *)

(** A timestamp the Date constructor accepts is turned into the text
    [YYYY-MM-DDTHH:mm:ss.sssZ], which denotes the same instant. *)
Definition normalizes_to_basic_format (DateParse : jsstring -> option Z)
  (s : jsstring) : Prop :=
  forall t,
    newDate DateParse (string_value s) = Some t ->
    exists out,
      parseTimestamp DateParse (string_value s) = Return out /\
      basic_format out = true /\
      iso_parse out = Some t.

(** *** Cells *)

Fixpoint drop_quotes (s : jsstring) : jsstring :=
  match s with
  | c :: r => if (c =? 34)%N then drop_quotes r else s
  | [] => []
  end.

(** a token without the double quotes around it, those inside kept *)
Definition strip_surrounding_quotes (s : jsstring) : jsstring :=
  rev (drop_quotes (rev (drop_quotes s))).

(** Every cell of a line is its piece between commas, trimmed, with the
    surrounding double quotes taken off and nothing else changed. *)
Definition cells_keep_interior_quotes (line : jsstring) : Prop :=
  cells line
  = map (fun v => strip_surrounding_quotes (JsString.trim v)) (split 44 line).

(** *** File names *)



(** *** Reading a GPX document *)

(** the text before the first [c], and the text from that [c] on *)
Fixpoint take_until (c : N) (s : jsstring) : jsstring * jsstring :=
  match s with
  | [] => ([], [])
  | x :: r =>
      if (x =? c)%N then ([], s)
      else let '(a, b) := take_until c r in (x :: a, b)
  end.

(** [s] without [p] at its start, when it starts with [p] *)
Fixpoint strip_prefix (p s : jsstring) : option jsstring :=
  match p, s with
  | [], _ => Some s
  | x :: p', y :: s' => if (x =? y)%N then strip_prefix p' s' else None
  | _ :: _, [] => None
  end.

(** what a track point shows in the document: the [lat] and [lon]
    attributes of its element and the text of its [ele] child *)
Record trkpt := {
  lat : jsstring;
  lon : jsstring;
  ele : jsstring
}.

(** the [trkpt] element that opens at the start of [s] *)
Definition read_trkpt (s : jsstring) : option trkpt :=
  match strip_prefix (str "<trkpt lat=" ++ quote) s with
  | None => None
  | Some r1 =>
      let '(lat, r2) := take_until 34 r1 in
      match strip_prefix (quote ++ str " lon=" ++ quote) r2 with
      | None => None
      | Some r3 =>
          let '(lon, r4) := take_until 34 r3 in
          match strip_prefix (quote ++ str ">" ++ newline ++ str "<ele>") r4 with
          | None => None
          | Some r5 =>
              let '(ele, r6) := take_until 60 r5 in
              match strip_prefix (str "</ele>") r6 with
              | None => None
              | Some _ => Some {| lat := lat; lon := lon; ele := ele |}
              end
          end
      end
  end.

(** Every place of the document where a [trkpt] tag opens, in order, each
    with the element read there ([None] when it is not of the shape
    above). *)
Fixpoint trkpt_elements (s : jsstring) : list (option trkpt) :=
  match s with
  | [] => []
  | _ :: r =>
      if starts_with (str "<trkpt") s then read_trkpt s :: trkpt_elements r
      else trkpt_elements r
  end.

(** a text without [<] and without double quote *)
Definition plain (v : jsstring) : bool :=
  forallb (fun c => negb ((c =? 60) || (c =? 34))%N) v.

(** A point whose timestamp and whose numbers, as the host prints them,
    are plain text: so it is of the points [parseCSV] builds, on a host
    that prints numbers in digits, signs, dots and letters. *)
Definition renders_plain (NumberToString : number -> jsstring)
  (p : TrackPoint) : bool :=
  plain (timestamp p)
  && plain (NumberToString (latitude p))
  && plain (NumberToString (longitude p))
  && plain (NumberToString (cog p))
  && plain (NumberToString (hdg_true p))
  && plain (NumberToString (heel p))
  && plain (NumberToString (trim p)).

(** the element of a point, as the serializer writes it *)
Definition shown (NumberToString : number -> jsstring) (p : TrackPoint)
  : option trkpt :=
  Some {| lat := NumberToString (latitude p);
          lon := NumberToString (longitude p);
          ele := NumberToString (hdg_true p) |}.

(** the document before the first point, the text of one point, and the
    document after the last point *)
Definition prologue : jsstring :=
  str "<?xml version=" ++ quote ++ str "1.0" ++ quote
  ++ str " encoding=" ++ quote ++ str "UTF-8" ++ quote ++ str "?>"
  ++ newline
  ++ str "<gpx version=" ++ quote ++ str "1.1" ++ quote
  ++ str " creator=" ++ quote ++ str "csv_to_gpx_converter_web" ++ quote
  ++ str " xmlns=" ++ quote ++ str "http://www.topografix.com/GPX/1/1"
  ++ quote ++ str ">" ++ newline
  ++ str "<trk>" ++ newline
  ++ str "<trkseg>".

Definition element (NumberToString : number -> jsstring) (point : TrackPoint)
  : jsstring :=
  newline
  ++ str "<trkpt lat=" ++ quote ++ NumberToString (latitude point)
  ++ quote ++ str " lon=" ++ quote
  ++ NumberToString (longitude point) ++ quote ++ str ">" ++ newline
  ++ str "<ele>" ++ NumberToString (hdg_true point) ++ str "</ele>"
  ++ newline
  ++ str "<time>" ++ timestamp point ++ str "</time>" ++ newline
  ++ str "<cog>" ++ NumberToString (cog point) ++ str "</cog>"
  ++ newline
  ++ str "<hdg_true>" ++ NumberToString (hdg_true point)
  ++ str "</hdg_true>" ++ newline
  ++ str "<heel>" ++ NumberToString (heel point) ++ str "</heel>"
  ++ newline
  ++ str "<trim>" ++ NumberToString (trim point) ++ str "</trim>"
  ++ newline
  ++ str "</trkpt>".

Definition epilogue : jsstring :=
  newline
  ++ str "</trkseg>" ++ newline
  ++ str "</trk>" ++ newline
  ++ str "</gpx>".

(** [p] and [s] disagree at a place both have: [p] then starts no text
    that starts with [s]. *)
Fixpoint differs (p s : jsstring) : bool :=
  match p, s with
  | x :: p', y :: s' => negb (x =? y)%N || differs p' s'
  | _, _ => false
  end.

(** a text in which no [trkpt] tag opens, whatever follows it *)
Fixpoint no_tag (l : jsstring) : bool :=
  match l with
  | [] => true
  | _ :: l' => differs (str "<trkpt") l && no_tag l'
  end.

(** *** Sample inputs *)

Definition header_line : jsstring :=
  str "timestamp,latitude,longitude,sog_kts,cog,hdg_true,heel,trim".

Definition two_rows_csv : jsstring :=
  header_line ++ newline
  ++ str "2025-11-20T08:07:30.060+0400,25.1,55.2,6.5,181,180,2.5,-1" ++ newline
  ++ str "2025-11-20T08:07:31.060+0400,25.2,55.3,6.6,182,181,2.6,-1.5".

Definition header_without_cog : jsstring :=
  str "timestamp,latitude,longitude,sog_kts,hdg_true,heel,trim".

Definition csv_without_cog : jsstring :=
  header_without_cog ++ newline
  ++ str "2025-11-20T08:07:30.060+0400,25.1,55.2,6.5,180,2.5,-1".

Definition infinity_csv : jsstring :=
  header_line ++ newline
  ++ str "2025-11-20T08:07:30.060+0400,25.1,55.2,6.5,181,180,2.5,-1" ++ newline
  ++ str "2025-11-20T08:07:31.060+0400,Infinity,55.3,6.6,182,181,2.6,-1.5".

Definition nan_row_csv : jsstring :=
  header_line ++ newline
  ++ str "2025-11-20T08:07:30.060+0400,25.1,55.2,6.5,181,180,2.5,-1" ++ newline
  ++ str "2025-11-20T08:07:31.060+0400,north,55.3,6.6,182,181,2.6,-1.5".

Definition ragged_row_csv : jsstring :=
  header_line ++ newline
  ++ str "2025-11-20T08:07:30.060+0400,25.1,55.2,6.5,181,180,2.5,-1" ++ newline
  ++ str "2025-11-20T08:07:31.060+0400,25.2,55.3,6.6" ++ newline
  ++ str "2025-11-20T08:07:32.060+0400,25.3,55.4,6.7,183,182,2.7,-2".

Definition nan_fields_csv : jsstring :=
  header_line ++ newline
  ++ str "2025-11-20T08:07:30.060+0400,25.1,55.2,,n/a,-,x,".

Definition offset_timestamp : jsstring := str "2025-11-20T08:07:30.060+0400".

Definition year_10000_timestamp : jsstring := str "+010000-01-01T00:00:00.000Z".

Definition interior_quote_token : jsstring := str "a" ++ quote ++ str "b".

(** the points of the two sample rows *)
Definition sample_points : list TrackPoint :=
  survivors iso_parse (header_cells two_rows_csv) (data_rows two_rows_csv).

(** *** Further vocabulary *)


(** a text of white space only *)
Definition blank (ws : jsstring) : Prop :=
  Forall (fun c => is_whitespace c = true) ws.

(** [p'] is [p] with white space around it. *)
Definition padded (p p' : jsstring) : Prop :=
  exists a b, blank a /\ blank b /\ p' = a ++ p ++ b.

(** a line whose number of cells is not that of the header *)
Definition ragged (headers : list jsstring) (line : jsstring) : bool :=
  negb (length (cells line) =? length headers)%nat.

(** two points that differ at most in their speed over ground *)
Definition same_but_speed (p q : TrackPoint) : Prop :=
  timestamp p = timestamp q /\ latitude p = latitude q
  /\ longitude p = longitude q /\ cog p = cog q /\ hdg_true p = hdg_true q
  /\ heel p = heel q /\ trim p = trim q.

(** all that an element of the document says of its point *)
Record trkpt_text := {
  lat_text : jsstring;
  lon_text : jsstring;
  ele_text : jsstring;
  time_text : jsstring;
  cog_text : jsstring;
  hdg_true_text : jsstring;
  heel_text : jsstring;
  trim_text : jsstring
}.

(** a child element at the start of [s]: its opening tag, its text up to
    the next [<], its closing tag; the text and what follows *)
Definition read_child (opening closing s : jsstring)
  : option (jsstring * jsstring) :=
  match strip_prefix opening s with
  | None => None
  | Some r =>
      let '(v, r') := take_until 60 r in
      match strip_prefix closing r' with
      | None => None
      | Some r'' => Some (v, r'')
      end
  end.

(** the whole [trkpt] element that opens at the start of [s]: the two
    attributes, the six children each on its line, the closing tag *)
Definition read_whole_trkpt (s : jsstring) : option trkpt_text :=
  match strip_prefix (str "<trkpt lat=" ++ quote) s with
  | None => None
  | Some r1 =>
  let '(lat, r2) := take_until 34 r1 in
  match strip_prefix (quote ++ str " lon=" ++ quote) r2 with
  | None => None
  | Some r3 =>
  let '(lon, r4) := take_until 34 r3 in
  match strip_prefix (quote ++ str ">") r4 with
  | None => None
  | Some r5 =>
  match read_child (newline ++ str "<ele>") (str "</ele>") r5 with
  | None => None
  | Some (ele, r6) =>
  match read_child (newline ++ str "<time>") (str "</time>") r6 with
  | None => None
  | Some (time, r7) =>
  match read_child (newline ++ str "<cog>") (str "</cog>") r7 with
  | None => None
  | Some (cog, r8) =>
  match read_child (newline ++ str "<hdg_true>") (str "</hdg_true>") r8 with
  | None => None
  | Some (hdg, r9) =>
  match read_child (newline ++ str "<heel>") (str "</heel>") r9 with
  | None => None
  | Some (heel, r10) =>
  match read_child (newline ++ str "<trim>") (str "</trim>") r10 with
  | None => None
  | Some (trim, r11) =>
  match strip_prefix (newline ++ str "</trkpt>") r11 with
  | None => None
  | Some _ =>
      Some {| lat_text := lat; lon_text := lon; ele_text := ele;
              time_text := time; cog_text := cog; hdg_true_text := hdg;
              heel_text := heel; trim_text := trim |}
  end end end end end end end end end end.

(** every place of the document where a [trkpt] tag opens, each with the
    whole element read there *)
Fixpoint whole_trkpts (s : jsstring) : list (option trkpt_text) :=
  match s with
  | [] => []
  | _ :: r =>
      if starts_with (str "<trkpt") s then read_whole_trkpt s :: whole_trkpts r
      else whole_trkpts r
  end.

(** what the serializer writes of a point *)
Definition written (NumberToString : number -> jsstring) (p : TrackPoint)
  : option trkpt_text :=
  Some {| lat_text := NumberToString (latitude p);
          lon_text := NumberToString (longitude p);
          ele_text := NumberToString (hdg_true p);
          time_text := timestamp p;
          cog_text := NumberToString (cog p);
          hdg_true_text := NumberToString (hdg_true p);
          heel_text := NumberToString (heel p);
          trim_text := NumberToString (trim p) |}.

(** * Properties *)

(** ** The calendar arithmetic *)

Section DateFacts.

Local Open Scope Z_scope.

Lemma YearFromTime_bracket t :
  DayFromYear (YearFromTime t) <= Day t < DayFromYear (YearFromTime t + 1).
Proof.
  unfold YearFromTime. set (d := Day t). clearbody d.
  set (y := 1970 + 400 * d / 146097).
  assert (Hy : DayFromYear (y - 1) <= d < DayFromYear (y + 2)).
  { unfold DayFromYear, y. Z.to_euclidean_division_equations. lia. }
  destruct (Z.ltb_spec d (DayFromYear y)).
  - replace (y - 1 + 1) with y by lia. lia.
  - destruct (Z.leb_spec (DayFromYear (y + 1)) d).
    + replace (y + 1 + 1) with (y + 2) by lia. lia.
    + lia.
Qed.

Lemma DaysInYear_step y : DayFromYear (y + 1) = DayFromYear y + DaysInYear y.
Proof.
  unfold DayFromYear, DaysInYear.
  destruct (Z.eqb_spec (y mod 4) 0), (Z.eqb_spec (y mod 100) 0),
    (Z.eqb_spec (y mod 400) 0); cbn [negb];
    Z.to_euclidean_division_equations; lia.
Qed.

Lemma DaysInYear_cases y : DaysInYear y = 365 \/ DaysInYear y = 366.
Proof.
  unfold DaysInYear.
  destruct (y mod 4 =? 0), (y mod 100 =? 0), (y mod 400 =? 0); cbn; auto.
Qed.

Lemma InLeapYear_days t : DaysInYear (YearFromTime t) = 365 + InLeapYear t.
Proof.
  unfold InLeapYear.
  destruct (DaysInYear_cases (YearFromTime t)) as [H | H]; rewrite H;
    reflexivity.
Qed.

Lemma DayWithinYear_range t : 0 <= DayWithinYear t < 365 + InLeapYear t.
Proof.
  unfold DayWithinYear. rewrite <- InLeapYear_days.
  pose proof (YearFromTime_bracket t) as H.
  rewrite DaysInYear_step in H. lia.
Qed.

Lemma InLeapYear_cases t : InLeapYear t = 0 \/ InLeapYear t = 1.
Proof. unfold InLeapYear. destruct (_ =? _); auto. Qed.

(** The month and the day of the month, as [MonthFromTime] and
    [DateFromTime] define them, lie in the calendar. *)
Lemma Month_Date_range t :
  0 <= MonthFromTime t <= 11 /\
  1 <= DateFromTime t <=
    DaysInMonth (YearFromTime t) (MonthFromTime t + 1) /\
  DateFromTime t <= 31.
Proof.
  pose proof (DayWithinYear_range t) as Hd.
  unfold DateFromTime, DaysInMonth, MonthFromTime.
  fold (InLeapYear t).
  destruct (InLeapYear_cases t) as [L | L]; rewrite L in *;
    repeat match goal with
           | |- context [?a <? ?b] => destruct (Z.ltb_spec a b)
           end; cbn; lia.
Qed.

Lemma time_fields_range t :
  0 <= HourFromTime t <= 23 /\ 0 <= MinFromTime t <= 59 /\
  0 <= SecFromTime t <= 59 /\ 0 <= msFromTime t <= 999.
Proof.
  unfold HourFromTime, MinFromTime, SecFromTime, msFromTime.
  Z.to_euclidean_division_equations. lia.
Qed.

(** The fields of a time value give the time value back. *)
Lemma MakeDate_fields t :
  MakeDate (MakeDay (YearFromTime t) (MonthFromTime t) (DateFromTime t))
           (MakeTime (HourFromTime t) (MinFromTime t) (SecFromTime t)
                     (msFromTime t)) = t.
Proof.
  unfold MakeDate, MakeDay, MakeTime, DateFromTime.
  fold (InLeapYear t). unfold DayWithinYear, Day.
  unfold HourFromTime, MinFromTime, SecFromTime, msFromTime, msPerDay.
  Z.to_euclidean_division_equations. lia.
Qed.

(** The years of the time values a Date can hold *)
Lemma YearFromTime_range t :
  Z.abs t <= 8640000000000000 -> -271821 <= YearFromTime t <= 275760.
Proof.
  intros Ht. pose proof (YearFromTime_bracket t) as H.
  unfold Day, msPerDay, DayFromYear in H.
  Z.to_euclidean_division_equations. lia.
Qed.

End DateFacts.

(** ** Digits and the date-time string format *)

Section IsoFacts.
Local Open Scope Z_scope.

Lemma is_digit_digit_char d : 0 <= d <= 9 -> is_digit (digit_char d) = true.
Proof.
  intros H. unfold is_digit, digit_char.
  apply andb_true_intro; split; apply N.leb_le; lia.
Qed.

Lemma digit_value_digit_char d : 0 <= d -> digit_value (digit_char d) = d.
Proof. intros H. unfold digit_value, digit_char. lia. Qed.

Lemma is_digit_mod n : is_digit (digit_char (n mod 10)) = true.
Proof. apply is_digit_digit_char. pose proof (Z.mod_pos_bound n 10). lia. Qed.

Lemma pad_digits w : forall n, Forall (fun c => is_digit c = true) (pad w n).
Proof.
  induction w as [| w IH]; intros n; cbn [pad].
  - constructor.
  - apply Forall_app; split; [apply IH |].
    constructor; [apply is_digit_mod | constructor].
Qed.

Lemma pad_length w : forall n, length (pad w n) = w.
Proof.
  induction w as [| w IH]; intros n; cbn [pad]; [reflexivity |].
  rewrite length_app, IH. cbn. lia.
Qed.

Lemma read_digits_app a :
  Forall (fun c => is_digit c = true) a ->
  forall m b acc,
    read_digits (length a + m) (a ++ b) acc
    = read_digits m b (fold_left digit_step a acc).
Proof.
  induction 1 as [| c a Hc _ IH]; intros m b acc; [reflexivity |].
  cbn [length Nat.add app read_digits fold_left]. rewrite Hc. apply IH.
Qed.

Lemma pad_value w :
  forall n acc, fold_left digit_step (pad w n) acc = acc * 10 ^ Z.of_nat w + n mod 10 ^ Z.of_nat w.
Proof.
  induction w as [| w IH]; intros n acc.
  - cbn. rewrite Z.mod_1_r. lia.
  - cbn [pad]. rewrite fold_left_app, IH. cbn [fold_left]. unfold digit_step at 1.
    rewrite digit_value_digit_char by (pose proof (Z.mod_pos_bound n 10); lia).
    rewrite Nat2Z.inj_succ, Z.pow_succ_r by lia.
    rewrite (Z.rem_mul_r n 10 (10 ^ Z.of_nat w)) by lia. lia.
Qed.

Lemma read_digits_pad w n r acc :
  0 <= n < 10 ^ Z.of_nat w ->
  read_digits w (pad w n ++ r) acc = Some (acc * 10 ^ Z.of_nat w + n, r).
Proof.
  intros Hn.
  pose proof (read_digits_app _ (pad_digits w n) 0%nat r acc) as H.
  rewrite pad_length, Nat.add_0_r in H. rewrite H. cbn [read_digits].
  rewrite pad_value, Z.mod_small by lia. reflexivity.
Qed.
Lemma expect_other k c r : (c =? k)%N = false -> expect k (c :: r) = None.
Proof. intros H. cbn. rewrite H. reflexivity. Qed.

Lemma digit_not k c :
  is_digit c = true -> (k < 48)%N -> (c =? k)%N = false.
Proof.
  unfold is_digit. intros H Hk. apply andb_prop in H as [H _].
  apply N.leb_le in H. apply N.eqb_neq. lia.
Qed.

Lemma pad_S w n : pad (S w) n = pad w (n / 10) ++ [digit_char (n mod 10)].
Proof. reflexivity. Qed.

(** a padded number of at least one digit starts with a digit *)
Lemma pad_head w n :
  exists c rest, pad (S w) n = c :: rest /\ is_digit c = true.
Proof.
  pose proof (pad_digits (S w) n) as H. pose proof (pad_length (S w) n) as L.
  destruct (pad (S w) n) as [| c rest]; [discriminate |].
  inversion H; subst. eauto.
Qed.

Lemma read_year_string y r :
  -999999 <= y <= 999999 ->
  read_year (year_string y ++ r) = Some (y, r).
Proof.
  intros Hy. unfold year_string.
  destruct (Z.leb_spec 0 y) as [H0 | H0]; cbn [andb].
  - destruct (Z.leb_spec y 9999) as [H1 | H1].
    + unfold read_year.
      destruct (pad_head 3 y) as (c & rest & E & Hc).
      rewrite E. cbn [app].
      rewrite !expect_other by (apply digit_not; [assumption | reflexivity]).
      rewrite (app_comm_cons rest r c), <- E. rewrite read_digits_pad by (cbn; lia).
      reflexivity.
    + destruct (Z.ltb_spec y 0); [lia |].
      change (str "+") with [43%N]. unfold read_year. cbn [app expect N.eqb Pos.eqb].
      rewrite read_digits_pad by (cbn; lia). rewrite Z.abs_eq by lia. reflexivity.
  - destruct (Z.ltb_spec y 0); [| lia].
    change (str "-") with [45%N]. unfold read_year. cbn [app expect N.eqb Pos.eqb].
    rewrite read_digits_pad by (cbn; lia).
    destruct (Z.eqb_spec (0 * 10 ^ Z.of_nat 6 + Z.abs y) 0); [lia |].
    f_equal. f_equal. lia.
Qed.

Lemma read_month_day_string m d r :
  0 <= m < 100 -> 0 <= d < 100 ->
  read_month_day (str "-" ++ pad 2 m ++ str "-" ++ pad 2 d ++ r) = Some (m, d, r).
Proof.
  intros Hm Hd. change (str "-") with [45%N]. unfold read_month_day.
  cbn [app expect N.eqb Pos.eqb].
  rewrite read_digits_pad by (cbn; lia). cbn [expect N.eqb Pos.eqb].
  rewrite read_digits_pad by (cbn; lia). reflexivity.
Qed.

Lemma read_time_string h mi sec ms r :
  0 <= h < 100 -> 0 <= mi < 100 -> 0 <= sec < 100 -> 0 <= ms < 1000 ->
  read_time (pad 2 h ++ str ":" ++ pad 2 mi ++ str ":" ++ pad 2 sec
             ++ str "." ++ pad 3 ms ++ r) = Some (h, mi, sec, ms, r).
Proof.
  intros Hh Hmi Hs Hms. change (str ":") with [58%N]. change (str ".") with [46%N].
  unfold read_time, read_seconds, read_ms.
  rewrite read_digits_pad by (cbn; lia). cbn [app expect N.eqb Pos.eqb].
  rewrite read_digits_pad by (cbn; lia). cbn [app expect N.eqb Pos.eqb].
  rewrite read_digits_pad by (cbn; lia). cbn [app expect N.eqb Pos.eqb].
  rewrite read_digits_pad by (cbn; lia). reflexivity.
Qed.

(** Reading [toISOString]'s text back gives the time value: the text
    denotes that instant, in UTC. *)
Lemma iso_parse_ISOString t :
  Z.abs t <= 8640000000000000 -> iso_parse (ISOString t) = Some t.
Proof.
  intros Ht. unfold ISOString, iso_parse.
  pose proof (YearFromTime_range t Ht) as Hy.
  pose proof (Month_Date_range t) as (Hm & Hd & Hd31).
  pose proof (time_fields_range t) as (Hh & Hmi & Hs & Hms).
  rewrite read_year_string by lia.
  rewrite read_month_day_string by lia.
  unfold valid_date.
  repeat match goal with
         | |- context [?a <=? ?b] =>
             destruct (Z.leb_spec a b); [| lia]
         end.
  cbn [andb]. change (str "T") with [84%N]. cbn [app expect N.eqb Pos.eqb].
  rewrite read_time_string by lia.
  change (str "Z") with [90%N]. cbn [read_offset expect N.eqb Pos.eqb].
  unfold valid_time.
  repeat match goal with
         | |- context [?a <=? ?b] =>
             destruct (Z.leb_spec a b); [| lia]
         end.
  cbn [andb orb]. f_equal.
  replace (MonthFromTime t + 1 - 1) with (MonthFromTime t) by lia.
  rewrite MakeDate_fields. lia.
Qed.
End IsoFacts.
Section FormatFacts.
Local Open Scope Z_scope.

Lemma pad2_eq n : pad 2 n = [digit_char (n / 10 mod 10); digit_char (n mod 10)].
Proof. reflexivity. Qed.

Lemma pad3_eq n :
  pad 3 n = [digit_char (n / 10 / 10 mod 10); digit_char (n / 10 mod 10);
             digit_char (n mod 10)].
Proof. reflexivity. Qed.

Lemma pad4_eq n :
  pad 4 n = [digit_char (n / 10 / 10 / 10 mod 10);
             digit_char (n / 10 / 10 mod 10); digit_char (n / 10 mod 10);
             digit_char (n mod 10)].
Proof. reflexivity. Qed.

Lemma pad6_eq n :
  pad 6 n = [digit_char (n / 10 / 10 / 10 / 10 / 10 mod 10);
             digit_char (n / 10 / 10 / 10 / 10 mod 10);
             digit_char (n / 10 / 10 / 10 mod 10);
             digit_char (n / 10 / 10 mod 10); digit_char (n / 10 mod 10);
             digit_char (n mod 10)].
Proof. reflexivity. Qed.

Lemma not_dot_mod n : (digit_char (n mod 10) =? 46)%N = false.
Proof. apply digit_not; [apply is_digit_mod | reflexivity]. Qed.

Lemma not_digit_mod n k :
  (k < 48)%N -> (digit_char (n mod 10) =? k)%N = false.
Proof. intros H. apply digit_not; [apply is_digit_mod | assumption]. Qed.

(** [toISOString]'s text, code unit by code unit *)
Ltac iso_text :=
  unfold ISOString, year_string;
  rewrite ?pad2_eq, ?pad3_eq, ?pad4_eq, ?pad6_eq;
  change (str "-") with [45%N]; change (str "+") with [43%N];
  change (str "T") with [84%N]; change (str ":") with [58%N];
  change (str ".") with [46%N]; change (str "Z") with [90%N].

Lemma ISOString_basic t :
  0 <= YearFromTime t <= 9999 -> basic_format (ISOString t) = true.
Proof.
  intros [H0 H1]. iso_text.
  destruct (Z.leb_spec 0 (YearFromTime t)); [| lia].
  destruct (Z.leb_spec (YearFromTime t) 9999); [| lia].
  cbn [andb]. unfold basic_format.
  change (str "dddd-dd-ddTdd:dd:dd.dddZ")
    with [100;100;100;100;45;100;100;45;100;100;84;100;100;58;100;100;58;
          100;100;46;100;100;100;90]%N.
  cbn [app matches_shape N.eqb Pos.eqb]. rewrite !is_digit_mod. reflexivity.
Qed.

Lemma ISOString_expanded t :
  ~ 0 <= YearFromTime t <= 9999 ->
  expanded_format (ISOString t) = true /\ basic_format (ISOString t) = false.
Proof.
  intros H. iso_text. unfold expanded_format, basic_format.
  change (str "dddd-dd-ddTdd:dd:dd.dddZ")
    with [100;100;100;100;45;100;100;45;100;100;84;100;100;58;100;100;58;
          100;100;46;100;100;100;90]%N.
  change (str "+dddddd-dd-ddTdd:dd:dd.dddZ")
    with [43;100;100;100;100;100;100;45;100;100;45;100;100;84;100;100;58;
          100;100;58;100;100;46;100;100;100;90]%N.
  change (str "-dddddd-dd-ddTdd:dd:dd.dddZ")
    with [45;100;100;100;100;100;100;45;100;100;45;100;100;84;100;100;58;
          100;100;58;100;100;46;100;100;100;90]%N.
  destruct (Z.leb_spec 0 (YearFromTime t)); cbn [andb].
  - destruct (Z.leb_spec (YearFromTime t) 9999); [lia |].
    destruct (Z.ltb_spec (YearFromTime t) 0); [lia |].
    cbn [app matches_shape N.eqb Pos.eqb is_digit N.leb N.compare Pos.compare Pos.compare_cont andb orb].
    rewrite !is_digit_mod. split; reflexivity.
  - destruct (Z.ltb_spec (YearFromTime t) 0); [| lia].
    cbn [app matches_shape N.eqb Pos.eqb is_digit N.leb N.compare Pos.compare Pos.compare_cont andb orb].
    rewrite !is_digit_mod. split; reflexivity.
Qed.

Lemma ISOString_ends t : ends_ms_Z (ISOString t) = true.
Proof.
  iso_text. unfold ends_ms_Z.
  change (str ".dddZ") with [46;100;100;100;90]%N.
  destruct (_ && _); [| destruct (_ <? _)];
    rewrite ?pad4_eq, ?pad6_eq; cbn [app length Nat.sub skipn matches_shape N.eqb Pos.eqb];
    rewrite !is_digit_mod; reflexivity.
Qed.

Lemma match_ms_head x r : (x =? 46)%N = false -> match_ms (x :: r) = None.
Proof.
  intros H. destruct r as [| a [| b [| c r]]]; cbn [match_ms]; try reflexivity.
  rewrite H. reflexivity.
Qed.

Lemma replace_ms_fixed pre a b c :
  Forall (fun x => (x =? 46)%N = false) pre ->
  is_digit a = true -> is_digit b = true -> is_digit c = true ->
  replace_ms (pre ++ [46%N; a; b; c; 90%N]) = pre ++ [46%N; a; b; c; 90%N].
Proof.
  intros Hpre Ha Hb Hc. induction Hpre as [| x pre Hx _ IH].
  - cbn [app replace_ms match_ms N.eqb Pos.eqb]. rewrite Ha, Hb, Hc. reflexivity.
  - cbn [app replace_ms]. rewrite match_ms_head by assumption. rewrite IH.
    reflexivity.
Qed.

(** The replacement of [parseTimestamp] leaves [toISOString]'s text as it
    is: the text already has exactly three digits before [Z]. *)
Lemma replace_ms_ISOString t : replace_ms (ISOString t) = ISOString t.
Proof.
  iso_text.
  destruct (_ && _); [| destruct (_ <? _)];
    rewrite ?pad4_eq, ?pad6_eq; cbn [app];
    match goal with
    | |- replace_ms ?l = _ =>
        let n := eval cbv in (length l - 5)%nat in
        change l with (firstn n l ++ skipn n l)
    end;
    cbn [firstn skipn];
    apply replace_ms_fixed; try apply is_digit_mod;
    repeat constructor; try (apply not_digit_mod; reflexivity).
Qed.
End FormatFacts.

(** ** The loop of [parseCSV] *)

Section LoopFacts.
Variable DateParse : jsstring -> option Z.

Lemma jseqb_refl a : jseqb a a = true.
Proof. induction a as [| x a IH]; cbn; [reflexivity |]. rewrite N.eqb_refl. exact IH. Qed.

Lemma jseqb_eq a b : jseqb a b = true <-> a = b.
Proof.
  split; [| intros ->; apply jseqb_refl].
  revert b. induction a as [| x a IH]; intros [| y b]; cbn; try discriminate; auto.
  intros H. apply andb_prop in H as [Hx Hr]. apply N.eqb_eq in Hx.
  f_equal; auto.
Qed.

(** One turn of the loop pushes the point of the line, if there is one,
    and nothing else. *)
Lemma loop_body_points headers i line st :
  points (loop_body DateParse headers i line st)
  = points st ++ option_list (row_point DateParse headers line).
Proof.
  unfold loop_body, row_point, row_of.
  destruct (length (cells line) =? length headers)%nat; cbn [negb option_list].
  - destruct (make_point DateParse _) as [p | e]; cbn.
    + destruct (isNaN (latitude p) || isNaN (longitude p)); cbn;
        [rewrite app_nil_r |]; reflexivity.
    + rewrite app_nil_r. reflexivity.
  - rewrite app_nil_r. reflexivity.
Qed.

Lemma for_loop_points headers rows :
  forall i st,
    points (for_loop DateParse headers rows i st)
    = points st ++ survivors DateParse headers rows.
Proof.
  induction rows as [| line rows IH]; intros i st; cbn [for_loop survivors flat_map].
  - rewrite app_nil_r. reflexivity.
  - rewrite IH, loop_body_points, <- app_assoc. f_equal.
Qed.

(** [parseCSV], case by case *)
Lemma parseLines_result lines :
  fst (parseLines DateParse lines)
  = if (length lines <? 2)%nat then Throw too_few_lines
    else
      let headers := cells (nth 0 lines []) in
      match missing_columns headers with
      | _ :: _ => Throw (missing_columns_error (missing_columns headers))
      | [] =>
          match survivors DateParse headers (tl lines) with
          | [] => Throw no_valid_points
          | pts => Return pts
          end
      end.
Proof.
  unfold parseLines. destruct (length lines <? 2)%nat; [reflexivity |].
  cbv zeta. fold (missing_columns (cells (nth 0 lines []))).
  destruct (missing_columns _) as [| c m]; cbn [length Nat.ltb Nat.leb].
  - rewrite for_loop_points. cbn [points app].
    destruct (survivors _ _ _); reflexivity.
  - reflexivity.
Qed.
End LoopFacts.

(** ** The host library on examples *)

Example parseFloat_tenth :
  parseFloat (str "0.1") = S754_finite false 7205759403792794 (-56).
Proof. vm_compute. reflexivity. Qed.

Example parseFloat_prefix :
  map (fun s => parseFloat (str s)) ["  42abc"; "1,5"; "1.e5"; ".5e"; "0x10"]%string
  = map (fun s => parseFloat (str s)) ["42"; "1"; "100000"; "0.5"; "0"]%string.
Proof. vm_compute. reflexivity. Qed.

Example parseFloat_NaN :
  map (fun s => isNaN (parseFloat (str s)))
      ["x"; "."; "abc"; "+-5"; "infinity"; "undefined"; "-0"; "1e999"]%string
  = [true; true; true; true; true; true; false; false].
Proof. vm_compute. reflexivity. Qed.

Example parseFloat_overflow :
  map (fun s => parseFloat (str s))
      ["1.7976931348623157e308"; "1.7976931348623159e308"; "-Infinity";
       "2e-324"; "-1e-400"]%string
  = [S754_finite false 9007199254740991 971; S754_infinity false;
     S754_infinity true; S754_zero false; S754_zero true].
Proof. vm_compute. reflexivity. Qed.

Example Number_toString_layouts :
  map (fun s => Number_toString (parseFloat (str s)))
      ["25.1"; "100"; "0.000001"; "1e-7"; "1e21"; "123456789012345680000";
       "0.30000000000000004"; "-1.5"; "5e-324"; "x"; "-0"; "1e999"]%string
  = map str
      ["25.1"; "100"; "0.000001"; "1e-7"; "1e+21"; "123456789012345680000";
       "0.30000000000000004"; "-1.5"; "5e-324"; "NaN"; "0"; "Infinity"]%string.
Proof. vm_compute. reflexivity. Qed.

Example ISOString_epoch : ISOString 0 = str "1970-01-01T00:00:00.000Z".
Proof. vm_compute. reflexivity. Qed.

Example ISOString_extremes :
  map ISOString [8640000000000000; -8640000000000000; -62167219200001]%Z
  = map str ["+275760-09-13T00:00:00.000Z"; "-271821-04-20T00:00:00.000Z";
             "-000001-12-31T23:59:59.999Z"]%string.
Proof. vm_compute. reflexivity. Qed.

Example iso_parse_forms :
  map (fun s => iso_parse (str s))
      ["1970-01-01"; "2025-11-20T04:07:30.060Z"; "2025-11-20T08:07:30.060+04:00";
       "2025-11-20T08:07:30.060+0400"; "2025-02-29"; "2025-11-20T08:07:30"]%string
  = [Some 0; Some 1763611650060; Some 1763611650060; Some 1763611650060;
     None; None]%Z.
Proof. vm_compute. reflexivity. Qed.

Example replace_ms_cuts_digits :
  replace_ms (str "2025-11-20T04:07:30.060123Z")
  = str "2025-11-20T04:07:30.060Z".
Proof. vm_compute. reflexivity. Qed.

(** A file with a bad timestamp, a bad coordinate and a ragged row: two
    points, and two warnings on the console, none for the ragged row. *)
Example parseCSV_sample :
  let csv :=
    header_line ++ newline
    ++ str "2025-11-20T08:07:30.060+0400,25.1,55.2,6.5,181,180,2.5,-1"
    ++ newline ++ str "yesterday,25.1,55.2,6.5,181,180,2.5,-1"
    ++ newline ++ str "2025-11-20T08:07:31.060+0400,north,55.3,6.6,182,181,2.6,-1.5"
    ++ newline ++ str "2025-11-20T08:07:32.060+0400,25.3,55.4"
    ++ newline ++ str "2025-11-20T08:07:33.060+0400,25.4,55.5,,,,,"
    ++ newline in
  snd (parseCSV iso_parse csv)
  = [str "Skipping row 3: Invalid timestamp format: yesterday";
     str "Skipping row 4: Invalid coordinates"]
  /\ match fst (parseCSV iso_parse csv) with
     | Return [p; q] =>
         timestamp p = str "2025-11-20T04:07:30.060Z"
         /\ timestamp q = str "2025-11-20T04:07:33.060Z"
         /\ Number_toString (latitude q) = str "25.4"
         /\ isNaN (trim q) = true
     | _ => False
     end.
Proof. vm_compute. repeat split. Qed.

(** ** [parseTimestamp] *)

Section Timestamps.
Variable DateParse : jsstring -> option Z.

Lemma TimeClip_Some o t :
  TimeClip o = Some t -> o = Some t /\ (Z.abs t <= 8640000000000000)%Z.
Proof.
  destruct o as [v |]; cbn; [| discriminate].
  destruct (Z.leb_spec (Z.abs v) 8640000000000000); [| discriminate].
  intros [= <-]. auto.
Qed.

Lemma newDate_Some v t :
  newDate DateParse v = Some t ->
  (Z.abs t <= 8640000000000000)%Z
  /\ exists s, v = string_value s /\ DateParse s = Some t.
Proof.
  destruct v as [| s]; cbn; [discriminate |].
  intros H. apply TimeClip_Some in H as [H1 H2]. eauto.
Qed.

(** On a valid date [parseTimestamp] returns [toISOString]'s text. *)
Lemma parseTimestamp_valid v t :
  newDate DateParse v = Some t ->
  parseTimestamp DateParse v = Return (ISOString t).
Proof.
  intros H. unfold parseTimestamp. rewrite H. cbn [toISOString].
  rewrite replace_ms_ISOString. reflexivity.
Qed.

(** On an invalid date it throws, with the text it was given. *)
Lemma parseTimestamp_invalid v :
  newDate DateParse v = None ->
  parseTimestamp DateParse v
  = Throw {| message := str "Invalid timestamp format: " ++ ToString v |}.
Proof. intros H. unfold parseTimestamp. rewrite H. reflexivity. Qed.

Lemma parseTimestamp_Return v ts :
  parseTimestamp DateParse v = Return ts ->
  exists t, newDate DateParse v = Some t /\ ts = ISOString t.
Proof.
  destruct (newDate DateParse v) as [t |] eqn:E.
  - rewrite (parseTimestamp_valid _ _ E). intros [= <-]. eauto.
  - rewrite (parseTimestamp_invalid _ E). discriminate.
Qed.

(** C3 (amended): for every timestamp string the Date constructor accepts,
    [parseTimestamp] returns the UTC text of that instant: reading the text
    back gives the instant; it has the form YYYY-MM-DDTHH:mm:ss.sssZ when
    the UTC year lies in 0..9999, and otherwise the same form with the year
    written as a sign and six digits; in both cases it closes with a dot,
    exactly three digits and Z.  On a host that reads the numeric offset
    +0400, [2025-11-20T08:07:30.060+0400] becomes
    [2025-11-20T04:07:30.060Z]. *)
Theorem normalize_gives_utc_text :
  (forall s t,
      newDate DateParse (string_value s) = Some t ->
      exists out,
        parseTimestamp DateParse (string_value s) = Return out
        /\ iso_parse out = Some t
        /\ ((0 <= YearFromTime t <= 9999)%Z -> basic_format out = true)
        /\ (~ (0 <= YearFromTime t <= 9999)%Z ->
            expanded_format out = true /\ basic_format out = false)
        /\ ends_ms_Z out = true)
  /\ (DateParse offset_timestamp = iso_parse offset_timestamp ->
      parseTimestamp DateParse (string_value offset_timestamp)
      = Return (str "2025-11-20T04:07:30.060Z")).
Proof.
  split.
  - intros s t H. exists (ISOString t).
    pose proof (newDate_Some _ _ H) as [Ht _].
    split; [apply parseTimestamp_valid, H |].
    split; [apply iso_parse_ISOString, Ht |].
    split; [apply ISOString_basic |].
    split; [apply ISOString_expanded | apply ISOString_ends].
  - intros H.
    rewrite (parseTimestamp_valid (string_value offset_timestamp)
               1763611650060%Z).
    + vm_compute. reflexivity.
    + cbn [newDate]. rewrite H. vm_compute. reflexivity.
Qed.
End Timestamps.

(** C3 (counterexample): the first instant of the year 10000, written in
    the date-time string format.  The Date constructor accepts it and
    [parseTimestamp] returns it unchanged, 27 code units that begin with a
    sign: not the form YYYY-MM-DDTHH:mm:ss.sssZ. *)
Lemma year_10000_is_not_basic_format :
  ~ normalizes_to_basic_format iso_parse year_10000_timestamp.
Proof.
  intros H. destruct (H 253402300800000%Z) as (out & Hout & Hbasic & _).
  - vm_compute. reflexivity.
  - vm_compute in Hout. injection Hout as <-. vm_compute in Hbasic.
    discriminate.
Qed.

Lemma normalize_gives_utc_text_witness :
  (newDate iso_parse (string_value offset_timestamp) = Some 1763611650060%Z
   /\ iso_parse offset_timestamp = iso_parse offset_timestamp)
  /\ parseTimestamp iso_parse (string_value offset_timestamp)
     = Return (str "2025-11-20T04:07:30.060Z")
  /\ exists out,
       parseTimestamp iso_parse (string_value offset_timestamp) = Return out
       /\ iso_parse out = Some 1763611650060%Z
       /\ basic_format out = true.
Proof.
  assert (D : newDate iso_parse (string_value offset_timestamp)
              = Some 1763611650060%Z) by (vm_compute; reflexivity).
  destruct (normalize_gives_utc_text iso_parse) as [G E].
  split; [split; [exact D | reflexivity] |].
  split; [exact (E eq_refl) |].
  destruct (G _ _ D) as (out & Hout & Hback & Hbasic & _).
  exists out. split; [exact Hout |]. split; [exact Hback |].
  apply Hbasic. vm_compute. split; discriminate.
Defined.

(** ** [parseCSV] *)

Section ParseFacts.
Variable DateParse : jsstring -> option Z.

Lemma missing_none headers :
  has_required_columns headers = true -> missing_columns headers = [].
Proof.
  unfold has_required_columns, missing_columns.
  induction expectedColumns as [| c cs IH]; cbn; [reflexivity |].
  intros H. apply andb_prop in H as [Hc Hcs]. rewrite Hc. cbn. auto.
Qed.

Lemma missing_some headers :
  has_required_columns headers = false -> missing_columns headers <> [].
Proof.
  unfold has_required_columns, missing_columns.
  induction expectedColumns as [| c cs IH]; cbn; [discriminate |].
  destruct (includes headers c); cbn; [auto | discriminate].
Qed.

Lemma parse_lines csvText :
  parse DateParse csvText = fst (parseLines DateParse (lines_of csvText)).
Proof. reflexivity. Qed.

Lemma split_not_nil sep s : split sep s <> [].
Proof.
  destruct s as [| c r]; cbn; [discriminate |].
  destruct (c =? sep)%N; [discriminate |]. destruct (split sep r); discriminate.
Qed.

Lemma lines_of_cons csvText :
  lines_of csvText = nth 0 (lines_of csvText) [] :: data_rows csvText.
Proof.
  unfold data_rows, lines_of.
  pose proof (split_not_nil 10 (JsString.trim csvText)) as H.
  destruct (split 10 (JsString.trim csvText)); [contradiction | reflexivity].
Qed.

Lemma few_lines csvText :
  (length (lines_of csvText) <? 2)%nat = true <-> data_rows csvText = [].
Proof.
  rewrite (lines_of_cons csvText) at 1. cbn [length].
  destruct (data_rows csvText); cbn; split; intros; congruence.
Qed.

(** what [parse] does, in the vocabulary of the specification *)
Lemma parse_cases csvText :
  parse DateParse csvText
  = match data_rows csvText with
    | [] => Throw too_few_lines
    | rows =>
        match missing_columns (header_cells csvText) with
        | _ :: _ =>
            Throw (missing_columns_error (missing_columns (header_cells csvText)))
        | [] =>
            match survivors DateParse (header_cells csvText) rows with
            | [] => Throw no_valid_points
            | pts => Return pts
            end
        end
    end.
Proof.
  rewrite parse_lines, parseLines_result.
  fold (header_cells csvText). fold (data_rows csvText).
  destruct (data_rows csvText) as [| r rows] eqn:E.
  - apply few_lines in E. rewrite E. reflexivity.
  - destruct (length (lines_of csvText) <? 2)%nat eqn:L; [| reflexivity].
    apply few_lines in L. congruence.
Qed.

Lemma isFinite_not_NaN x : isFinite x = true -> isNaN x = false.
Proof. destruct x; cbn; congruence. Qed.

Lemma valid_row_point headers line :
  valid_row DateParse headers line ->
  exists p, row_point DateParse headers line = Some p
            /\ point_of_row DateParse headers line p.
Proof.
  intros (Hlen & (ts & Hts) & Hlat & Hlon).
  unfold row_point, point_of_row, make_point.
  apply Nat.eqb_eq in Hlen. rewrite Hlen.
  unfold field in Hts. rewrite Hts. cbn [latitude longitude].
  unfold number_field, field in Hlat, Hlon.
  rewrite (isFinite_not_NaN _ Hlat), (isFinite_not_NaN _ Hlon). cbn [orb].
  eexists. split; reflexivity.
Qed.

Lemma valid_rows_survive headers rows :
  Forall (valid_row DateParse headers) rows ->
  exists pts, survivors DateParse headers rows = pts
              /\ Forall2 (point_of_row DateParse headers) rows pts.
Proof.
  induction 1 as [| line rows Hv _ (pts & E & F)].
  - exists []. split; [reflexivity | constructor].
  - destruct (valid_row_point _ _ Hv) as (p & Hp & Hb).
    exists (p :: pts). split.
    + cbn [survivors flat_map]. rewrite Hp. cbn. f_equal. exact E.
    + constructor; assumption.
Qed.

(** C1 (amended): for every CSV input whose header contains all required
    columns and which has at least one data row, if each of its N data rows
    has as many cells as the header, a timestamp the normalizer accepts and
    finite latitude and longitude, then [parse] returns exactly N points,
    the i-th one built from the i-th row. *)
Theorem parse_valid_rows_in_order csvText :
  data_rows csvText <> [] -> parses_every_row DateParse csvText.
Proof.
  intros Hrows Hreq Hvalid.
  destruct (valid_rows_survive _ _ Hvalid) as (pts & E & F).
  exists pts. split; [| split].
  - rewrite parse_cases, (missing_none _ Hreq).
    destruct (data_rows csvText) as [| r rows]; [contradiction |].
    rewrite E. inversion F; subst. reflexivity.
  - symmetry. eapply Forall2_length; eassumption.
  - exact F.
Qed.
End ParseFacts.

(** C1 (counterexample): a header with every required column and no data
    row meets the premises of the claim with N = 0, and [parse] throws
    instead of returning an empty sequence. *)
Lemma header_only_is_not_parsed : ~ parses_every_row iso_parse header_line.
Proof.
  intros H. destruct H as (pts & Hp & _).
  - vm_compute. reflexivity.
  - change (data_rows header_line) with (@nil jsstring). constructor.
  - vm_compute in Hp. discriminate.
Qed.

Ltac valid_rows :=
  repeat (apply Forall_cons || apply Forall_nil);
  (split; [| split; [eexists | split]]); vm_compute; reflexivity.

Lemma parse_valid_rows_in_order_witness :
  (data_rows two_rows_csv <> []
   /\ has_required_columns (header_cells two_rows_csv) = true
   /\ Forall (valid_row iso_parse (header_cells two_rows_csv))
             (data_rows two_rows_csv))
  /\ exists pts,
       parse iso_parse two_rows_csv = Return pts /\
       length pts = 2%nat /\
       Forall2 (point_of_row iso_parse (header_cells two_rows_csv))
               (data_rows two_rows_csv) pts.
Proof.
  assert (R : data_rows two_rows_csv <> []) by (vm_compute; discriminate).
  assert (H : has_required_columns (header_cells two_rows_csv) = true)
    by (vm_compute; reflexivity).
  assert (V : Forall (valid_row iso_parse (header_cells two_rows_csv))
                     (data_rows two_rows_csv)).
  { let rows := eval vm_compute in (data_rows two_rows_csv) in
    change (data_rows two_rows_csv) with rows.
    valid_rows. }
  split; [auto |].
  exact (parse_valid_rows_in_order iso_parse two_rows_csv R H V).
Defined.
Section ErrorFacts.
Variable DateParse : jsstring -> option Z.
Variable NumberToString : number -> jsstring.

End ErrorFacts.
(** *** Missing columns *)

Lemma starts_with_app p r : starts_with p (p ++ r) = true.
Proof.
  induction p as [| x p IH]; cbn; [reflexivity |].
  rewrite N.eqb_refl. exact IH.
Qed.

Lemma contains_here p r : contains p (p ++ r) = true.
Proof. destruct (p ++ r) eqn:E; cbn; rewrite <- E, starts_with_app; reflexivity. Qed.

Lemma contains_app_r p a s : contains p s = true -> contains p (a ++ s) = true.
Proof.
  intros H. induction a as [| x a IH]; [exact H |].
  cbn [app contains]. rewrite IH. apply orb_true_r.
Qed.

Lemma contains_join sep c l : In c l -> contains c (join sep l) = true.
Proof.
  induction l as [| x l IH]; [contradiction |].
  intros [-> | Hin].
  - destruct l; cbn [join].
    + rewrite <- (app_nil_r c) at 2. apply contains_here.
    + apply contains_here.
  - specialize (IH Hin). destruct l as [| y l]; [contradiction |].
    cbn [join]. apply contains_app_r, contains_app_r. exact IH.
Qed.

Section MissingColumns.
Variable DateParse : jsstring -> option Z.

(** C6 (amended): for every input with at least one data row whose header
    lacks a required column, [parse] throws the error whose message is
    [CSV missing required columns: ] followed by the missing columns,
    separated by a comma and a space, so the message names every missing
    column; a header that lacks only [cog], followed by a data row, gives
    [CSV missing required columns: cog]. *)
Theorem missing_columns_are_named csvText :
  data_rows csvText <> [] ->
  names_missing_columns DateParse csvText
  /\ (has_required_columns (header_cells csvText) = false ->
      parse DateParse csvText
      = Throw (missing_columns_error (missing_columns (header_cells csvText))))
  /\ parse DateParse csv_without_cog
     = Throw {| message := str "CSV missing required columns: cog" |}.
Proof.
  intros Hrows.
  assert (E : has_required_columns (header_cells csvText) = false ->
              parse DateParse csvText
              = Throw (missing_columns_error
                         (missing_columns (header_cells csvText)))).
  { intros Hreq. rewrite parse_cases.
    destruct (data_rows csvText); [contradiction |].
    pose proof (missing_some _ Hreq) as M.
    destruct (missing_columns (header_cells csvText)); [contradiction |].
    reflexivity. }
  split; [| split; [exact E | vm_compute; reflexivity]].
  intros Hreq. eexists. split; [exact (E Hreq) |].
  intros c Hc Hinc. cbn [message missing_columns_error].
  apply contains_app_r, contains_join.
  unfold missing_columns. apply filter_In. split; [exact Hc |].
  rewrite Hinc. reflexivity.
Qed.
End MissingColumns.

(** C6 (counterexample): a header without [cog] and no data row.  [parse]
    throws the error of a file with too few lines, and its message does not
    name [cog]. *)
Lemma lone_header_without_cog_is_not_named :
  ~ names_missing_columns iso_parse header_without_cog.
Proof.
  intros H. destruct H as (e & He & Hnames); [vm_compute; reflexivity |].
  assert (Hcog : contains (str "cog") (message e) = true).
  { apply Hnames; [| vm_compute; reflexivity].
    unfold expectedColumns. cbn [map In]. auto 10. }
  vm_compute in He. injection He as <-. vm_compute in Hcog. discriminate.
Qed.

Lemma missing_columns_are_named_witness :
  (data_rows csv_without_cog <> []
   /\ has_required_columns (header_cells csv_without_cog) = false)
  /\ exists e,
       parse iso_parse csv_without_cog = Throw e
       /\ contains (str "cog") (message e) = true.
Proof.
  assert (R : data_rows csv_without_cog <> []) by (vm_compute; discriminate).
  assert (H : has_required_columns (header_cells csv_without_cog) = false)
    by (vm_compute; reflexivity).
  split; [auto |].
  destruct (missing_columns_are_named iso_parse csv_without_cog R)
    as (N & _ & _).
  destruct (N H) as (e & He & Hnames).
  exists e. split; [exact He |].
  apply Hnames; [| vm_compute; reflexivity].
  unfold expectedColumns. cbn [map In]. auto 10.
Defined.
(** *** Rows that are skipped *)

Section SkippedRows.
Variable DateParse : jsstring -> option Z.

Lemma survivors_app headers a b :
  survivors DateParse headers (a ++ b)
  = survivors DateParse headers a ++ survivors DateParse headers b.
Proof. unfold survivors. apply flat_map_app. Qed.

Lemma survivors_skip headers before r after :
  row_point DateParse headers r = None ->
  survivors DateParse headers (before ++ r :: after)
  = survivors DateParse headers (before ++ after).
Proof.
  intros H. rewrite !survivors_app. f_equal.
  cbn [survivors flat_map]. rewrite H. reflexivity.
Qed.

(** the coordinates of a point are those read from its row *)
Lemma make_point_coordinates headers line p :
  make_point DateParse (row_of headers line) = Return p ->
  latitude p = number_field headers line "latitude"
  /\ longitude p = number_field headers line "longitude".
Proof.
  unfold make_point. destruct (parseTimestamp _ _); [| discriminate].
  intros [= <-]. split; reflexivity.
Qed.

Lemma row_point_coordinates headers line p :
  row_point DateParse headers line = Some p ->
  point_of_row DateParse headers line p
  /\ isNaN (latitude p) = false /\ isNaN (longitude p) = false.
Proof.
  unfold row_point, point_of_row.
  destruct (length (cells line) =? length headers)%nat; [| discriminate].
  destruct (make_point _ _) as [q | e]; [| discriminate].
  destruct (isNaN (latitude q) || isNaN (longitude q)) eqn:E; [discriminate |].
  intros [= <-]. apply orb_false_elim in E. tauto.
Qed.

Lemma NaN_row_point headers line :
  isNaN (number_field headers line "latitude")
  || isNaN (number_field headers line "longitude") = true ->
  row_point DateParse headers line = None.
Proof.
  intros H. destruct (row_point DateParse headers line) as [p |] eqn:E;
    [| reflexivity].
  apply row_point_coordinates in E as (Hp & Hlat & Hlon).
  apply make_point_coordinates in Hp as [Ea Eo].
  rewrite <- Ea, <- Eo, Hlat, Hlon in H. discriminate.
Qed.

Lemma survivors_In headers rows p :
  In p (survivors DateParse headers rows) ->
  exists line, In line rows /\ row_point DateParse headers line = Some p.
Proof.
  unfold survivors. intros H. apply in_flat_map in H as (line & Hin & Hp).
  exists line. split; [exact Hin |].
  destruct (row_point DateParse headers line); cbn in Hp; [| contradiction].
  destruct Hp as [-> | []]. reflexivity.
Qed.

Lemma parse_Return csvText pts :
  parse DateParse csvText = Return pts ->
  pts = survivors DateParse (header_cells csvText) (data_rows csvText).
Proof.
  rewrite parse_cases. destruct (data_rows csvText); [discriminate |].
  destruct (missing_columns _); [| discriminate].
  destruct (survivors _ _ _); [discriminate |]. congruence.
Qed.

Lemma parse_rows csvText :
  data_rows csvText <> [] ->
  missing_columns (header_cells csvText) = [] ->
  survivors DateParse (header_cells csvText) (data_rows csvText) <> [] ->
  parse DateParse csvText
  = Return (survivors DateParse (header_cells csvText) (data_rows csvText)).
Proof.
  intros R M S. rewrite parse_cases, M.
  destruct (data_rows csvText); [contradiction |].
  destruct (survivors _ _ _); [contradiction | reflexivity].
Qed.

(** C4 (amended): under a header with the required columns, every data row
    whose latitude or longitude parses to NaN is left out of the output,
    and [parse] returns the points of the other rows without throwing,
    provided the other rows yield a point; a point is built only from a row
    whose latitude and longitude are both not NaN (an infinite coordinate
    passes). *)
Theorem NaN_coordinates_are_excluded csvText :
  excludes_coordinates isNaN DateParse csvText.
Proof.
  unfold excludes_coordinates. intros Hreq. split.
  - intros before r after Hrows Hbad Hrest.
    pose proof (survivors_skip (header_cells csvText) before r after
                  (NaN_row_point _ _ Hbad)) as S.
    rewrite <- S, <- Hrows in *. apply parse_rows; [| | assumption].
    + rewrite Hrows. destruct before; discriminate.
    + apply missing_none, Hreq.
  - intros pts Hp. apply parse_Return in Hp. subst pts.
    apply Forall_forall. intros p Hin.
    apply survivors_In in Hin as (line & _ & Hrow).
    apply row_point_coordinates in Hrow. tauto.
Qed.
End SkippedRows.

(** C4 (counterexample): a row whose latitude is [Infinity].  Its latitude
    is not finite, the other row yields a point, and [parse] returns two
    points, the second with an infinite latitude, instead of the one. *)
Lemma infinite_latitude_is_kept :
  ~ excludes_coordinates not_finite iso_parse infinity_csv.
Proof.
  intros H. unfold excludes_coordinates in H. cbv zeta in H.
  destruct H as [H _]; [vm_compute; reflexivity |].
  specialize (H [nth 0 (data_rows infinity_csv) []]
                (nth 1 (data_rows infinity_csv) []) []).
  assert (E : parse iso_parse infinity_csv
              = Return (survivors iso_parse (header_cells infinity_csv)
                          ([nth 0 (data_rows infinity_csv) []] ++ []))).
  { apply H; [vm_compute; reflexivity | vm_compute; reflexivity |].
    vm_compute. discriminate. }
  vm_compute in E. discriminate.
Qed.

Lemma NaN_coordinates_are_excluded_witness :
  has_required_columns (header_cells nan_row_csv) = true
  /\ isNaN (number_field (header_cells nan_row_csv)
              (nth 1 (data_rows nan_row_csv) []) "latitude") = true
  /\ parse iso_parse nan_row_csv
     = Return (survivors iso_parse (header_cells nan_row_csv)
                 [nth 0 (data_rows nan_row_csv) []])
  /\ length (survivors iso_parse (header_cells nan_row_csv)
                 [nth 0 (data_rows nan_row_csv) []]) = 1%nat.
Proof.
  assert (H : has_required_columns (header_cells nan_row_csv) = true)
    by (vm_compute; reflexivity).
  destruct (NaN_coordinates_are_excluded iso_parse nan_row_csv H) as [E _].
  specialize (E [nth 0 (data_rows nan_row_csv) []]
                (nth 1 (data_rows nan_row_csv) []) []).
  split; [exact H |]. split; [vm_compute; reflexivity |].
  split; [| vm_compute; reflexivity].
  apply E; [vm_compute; reflexivity | vm_compute; reflexivity |].
  vm_compute. discriminate.
Defined.
Section RaggedRows.
Variable DateParse : jsstring -> option Z.

Lemma ragged_row_point headers line :
  length (cells line) <> length headers ->
  row_point DateParse headers line = None.
Proof.
  intros H. unfold row_point. apply Nat.eqb_neq in H. rewrite H. reflexivity.
Qed.

(** C8: a data row whose number of cells differs from the header's is
    skipped in silence: its turn of the loop leaves the points and the
    console as they were and throws nothing; the points of the rows before
    and after it are those they yield without it; what [parse] returns or
    throws is decided by the other rows alone, and is what [parseCSV] gives
    on the lines without the row whenever other rows are left. *)
Theorem ragged_row_is_skipped csvText header before r after :
  lines_of csvText = header :: before ++ r :: after ->
  length (cells r) <> length (cells header) ->
  (forall i st, loop_body DateParse (cells header) i r st = st)
  /\ survivors DateParse (cells header) (before ++ r :: after)
     = survivors DateParse (cells header) before
       ++ survivors DateParse (cells header) after
  /\ parse DateParse csvText
     = match missing_columns (cells header) with
       | _ :: _ => Throw (missing_columns_error (missing_columns (cells header)))
       | [] =>
           match survivors DateParse (cells header) (before ++ after) with
           | [] => Throw no_valid_points
           | pts => Return pts
           end
       end
  /\ (before ++ after <> [] ->
      parse DateParse csvText
      = fst (parseLines DateParse (header :: before ++ after))).
Proof.
  intros Hlines Hragged.
  pose proof (ragged_row_point (cells header) r Hragged) as Hnone.
  pose proof (survivors_skip DateParse (cells header) before r after Hnone) as S.
  assert (P : parse DateParse csvText
              = match missing_columns (cells header) with
                | _ :: _ =>
                    Throw (missing_columns_error (missing_columns (cells header)))
                | [] =>
                    match survivors DateParse (cells header) (before ++ after) with
                    | [] => Throw no_valid_points
                    | pts => Return pts
                    end
                end).
  { rewrite parse_lines, Hlines, parseLines_result.
    cbn [nth tl]. rewrite S.
    replace (length (header :: before ++ r :: after) <? 2)%nat with false;
      [reflexivity |].
    symmetry. apply Nat.ltb_ge. cbn [length]. rewrite length_app. cbn. lia. }
  split; [| split; [| split]].
  - intros i st. unfold loop_body. apply Nat.eqb_neq in Hragged.
    rewrite Hragged. reflexivity.
  - rewrite S. apply survivors_app.
  - exact P.
  - intros Hrest. rewrite P, parseLines_result. cbn [nth tl].
    replace (length (header :: before ++ after) <? 2)%nat with false;
      [reflexivity |].
    symmetry. apply Nat.ltb_ge. cbn [length].
    destruct (before ++ after); [contradiction | cbn; lia].
Qed.
End RaggedRows.

Lemma ragged_row_is_skipped_witness :
  (lines_of ragged_row_csv
   = nth 0 (lines_of ragged_row_csv) []
     :: [nth 1 (lines_of ragged_row_csv) []]
        ++ nth 2 (lines_of ragged_row_csv) []
        :: [nth 3 (lines_of ragged_row_csv) []]
   /\ length (cells (nth 2 (lines_of ragged_row_csv) []))
      <> length (cells (nth 0 (lines_of ragged_row_csv) [])))
  /\ exists p q, parse iso_parse ragged_row_csv = Return [p; q].
Proof.
  assert (L : lines_of ragged_row_csv
              = nth 0 (lines_of ragged_row_csv) []
                :: [nth 1 (lines_of ragged_row_csv) []]
                   ++ nth 2 (lines_of ragged_row_csv) []
                   :: [nth 3 (lines_of ragged_row_csv) []])
    by (vm_compute; reflexivity).
  assert (R : length (cells (nth 2 (lines_of ragged_row_csv) []))
              <> length (cells (nth 0 (lines_of ragged_row_csv) [])))
    by (vm_compute; discriminate).
  split; [auto |].
  destruct (ragged_row_is_skipped iso_parse ragged_row_csv _ _ _ _ L R)
    as (_ & _ & P & _).
  rewrite P. vm_compute. eauto.
Defined.
Section PointInvariant.
Variable DateParse : jsstring -> option Z.

Lemma make_point_timestamp row p :
  make_point DateParse row = Return p ->
  parseTimestamp DateParse (obj_get row (str "timestamp"))
  = Return (timestamp p).
Proof.
  unfold make_point. destruct (parseTimestamp _ _) as [ts | e]; [| discriminate].
  intros [= <-]. reflexivity.
Qed.

(** C10: every point [parse] returns has a latitude and a longitude that
    are not NaN, and a timestamp that is exactly what [parseTimestamp]
    returns on the timestamp field of the row it comes from, hence a text
    closing with a dot, exactly three digits and Z; the five other numbers
    may be NaN, as on the sample row, whose point carries five NaN. *)
Theorem parsed_points_invariant :
  (forall csvText pts,
      parse DateParse csvText = Return pts ->
      Forall (fun p =>
                isNaN (latitude p) = false
                /\ isNaN (longitude p) = false
                /\ (exists line,
                       In line (data_rows csvText)
                       /\ point_of_row DateParse (header_cells csvText) line p
                       /\ parseTimestamp DateParse
                            (field (header_cells csvText) line "timestamp")
                          = Return (timestamp p))
                /\ ends_ms_Z (timestamp p) = true) pts)
  /\ (DateParse offset_timestamp = iso_parse offset_timestamp ->
      exists p,
        parse DateParse nan_fields_csv = Return [p]
        /\ isNaN (sog_kts p) = true /\ isNaN (cog p) = true
        /\ isNaN (hdg_true p) = true /\ isNaN (heel p) = true
        /\ isNaN (trim p) = true).
Proof.
  split.
  - intros csvText pts Hp. apply parse_Return in Hp. subst pts.
    apply Forall_forall. intros p Hin.
    apply survivors_In in Hin as (line & Hline & Hrow).
    apply row_point_coordinates in Hrow as (Hp & Hlat & Hlon).
    pose proof (make_point_timestamp _ _ Hp) as Hts.
    destruct (parseTimestamp_Return _ _ _ Hts) as (t & _ & Et).
    repeat split; try assumption.
    + exists line. auto.
    + rewrite Et. apply ISOString_ends.
  - intros H.
    assert (D : newDate DateParse (string_value offset_timestamp)
                = Some 1763611650060%Z).
    { cbn [newDate]. rewrite H. vm_compute. reflexivity. }
    pose proof (parseTimestamp_valid _ _ _ D) as T.
    eexists. split.
    + rewrite parse_cases.
      change (data_rows nan_fields_csv)
        with [str "2025-11-20T08:07:30.060+0400,25.1,55.2,,n/a,-,x,"].
      replace (missing_columns (header_cells nan_fields_csv))
        with (@nil jsstring) by (vm_compute; reflexivity).
      cbn [survivors flat_map]. unfold row_point.
      replace (length (cells _) =? length (header_cells nan_fields_csv))%nat
        with true by (vm_compute; reflexivity).
      unfold make_point.
      replace (obj_get _ (str "timestamp"))
        with (string_value offset_timestamp) by (vm_compute; reflexivity).
      rewrite T. cbn [latitude longitude].
      replace (isNaN (parseFloat (ToString (obj_get _ (str "latitude")))))
        with false by (vm_compute; reflexivity).
      replace (isNaN (parseFloat (ToString (obj_get _ (str "longitude")))))
        with false by (vm_compute; reflexivity).
      cbn [orb option_list app]. reflexivity.
    + cbn [sog_kts cog hdg_true heel trim]. repeat split; vm_compute; reflexivity.
Qed.
End PointInvariant.

Lemma parsed_points_invariant_witness :
  parse iso_parse two_rows_csv
  = Return (survivors iso_parse (header_cells two_rows_csv)
              (data_rows two_rows_csv))
  /\ Forall (fun p => isNaN (latitude p) = false
                      /\ isNaN (longitude p) = false
                      /\ ends_ms_Z (timestamp p) = true)
            (survivors iso_parse (header_cells two_rows_csv)
               (data_rows two_rows_csv)).
Proof.
  assert (P : parse iso_parse two_rows_csv
              = Return (survivors iso_parse (header_cells two_rows_csv)
                          (data_rows two_rows_csv)))
    by (vm_compute; reflexivity).
  split; [exact P |].
  destruct (parsed_points_invariant iso_parse) as [I _].
  eapply Forall_impl; [| exact (I _ _ P)].
  cbv beta. tauto.
Defined.

(** ** Cells *)

Lemma remove_quotes_drop s : remove_quotes (drop_quotes s) = remove_quotes s.
Proof.
  induction s as [| c s IH]; [reflexivity |].
  cbn [drop_quotes]. destruct (c =? 34)%N eqn:E; [| reflexivity].
  rewrite IH. unfold remove_quotes. cbn [filter]. rewrite E. reflexivity.
Qed.

Lemma remove_quotes_rev s : remove_quotes (rev s) = rev (remove_quotes s).
Proof.
  unfold remove_quotes. induction s as [| c s IH]; [reflexivity |].
  cbn [rev filter]. rewrite filter_app, IH. cbn [filter].
  destruct (negb (c =? 34)%N); cbn [rev]; [reflexivity | apply app_nil_r].
Qed.

Lemma remove_quotes_strip s :
  remove_quotes (strip_surrounding_quotes s) = remove_quotes s.
Proof.
  unfold strip_surrounding_quotes.
  rewrite remove_quotes_rev, remove_quotes_drop, remove_quotes_rev,
    rev_involutive.
  apply remove_quotes_drop.
Qed.

Lemma remove_quotes_none s : ~ In 34%N s -> remove_quotes s = s.
Proof.
  unfold remove_quotes. induction s as [| c s IH]; [reflexivity |].
  intros H. cbn [filter]. destruct (N.eqb_spec c 34) as [-> | _].
  - exfalso. apply H. left. reflexivity.
  - cbn [negb]. f_equal. apply IH. intros Hin. apply H. right. exact Hin.
Qed.

Lemma remove_quotes_clean s : ~ In 34%N (remove_quotes s).
Proof.
  unfold remove_quotes. intros H. apply filter_In in H as [_ H].
  discriminate.
Qed.

Lemma split_length sep s : length (split sep s) = S (count_occ N.eq_dec s sep).
Proof.
  induction s as [| c s IH]; [reflexivity |].
  cbn [split count_occ]. destruct (N.eqb_spec c sep) as [-> | Hne].
  - destruct (N.eq_dec sep sep); [| contradiction]. cbn [length]. rewrite IH.
    reflexivity.
  - destruct (N.eq_dec c sep); [contradiction |].
    destruct (split sep s); cbn [length] in *; [discriminate | exact IH].
Qed.

(** C7 (amended): every cell of a header line or of a data row is its piece
    between two commas, trimmed and then rid of every double quote, the
    interior ones too, the other code units kept in their order; so a cell
    holds no double quote, a line of k commas has k + 1 cells whatever the
    quotes, and the cell is the piece with its surrounding quotes stripped
    exactly when that leaves no quote inside. *)
Theorem cells_lose_every_quote line :
  length (cells line) = S (count_occ N.eq_dec line 44%N)
  /\ Forall2 (fun piece cell =>
                cell = remove_quotes (JsString.trim piece)
                /\ ~ In 34%N cell
                /\ (~ In 34%N (strip_surrounding_quotes (JsString.trim piece))
                    <-> cell = strip_surrounding_quotes (JsString.trim piece)))
             (split 44 line) (cells line).
Proof.
  unfold cells. split; [rewrite length_map; apply split_length |].
  induction (split 44 line) as [| piece pieces IH]; cbn [map]; constructor;
    [| exact IH].
  split; [reflexivity |]. split; [apply remove_quotes_clean |].
  split.
  - intros H. rewrite <- remove_quotes_strip. apply remove_quotes_none, H.
  - intros E. rewrite <- E. apply remove_quotes_clean.
Qed.

(** C7 (counterexample): the token a, double quote, b.  Nothing surrounds
    it, its quote is interior, and the cell the parser makes of it is ab. *)
Lemma interior_quote_is_removed :
  ~ cells_keep_interior_quotes interior_quote_token.
Proof. intros H. vm_compute in H. discriminate. Qed.

(** ** The suggested file name *)





Section FileName.
Variable DateParse : jsstring -> option Z.
Variable NumberToString : number -> jsstring.

End FileName.

(** ** [createGPXXML] *)

Lemma plain_no c v :
  plain v = true -> (c = 60 \/ c = 34)%N ->
  Forall (fun x => (x =? c)%N = false) v.
Proof.
  unfold plain. intros H Hc. apply Forall_forall. intros x Hx.
  rewrite forallb_forall in H. specialize (H x Hx).
  apply negb_true_iff, orb_false_elim in H as [H1 H2].
  destruct Hc as [-> | ->]; assumption.
Qed.

Lemma take_until_app c v r :
  Forall (fun x => (x =? c)%N = false) v ->
  take_until c (v ++ c :: r) = (v, c :: r).
Proof.
  induction 1 as [| x v Hx _ IH]; cbn [app take_until].
  - rewrite N.eqb_refl. reflexivity.
  - rewrite Hx, IH. reflexivity.
Qed.

Lemma starts_with_head p x s c :
  (x =? c)%N = false -> starts_with (x :: p) (c :: s) = false.
Proof. intros H. cbn. rewrite H. reflexivity. Qed.

(** no tag opens in a text without [<] *)
Lemma trkpt_elements_plain v r :
  Forall (fun x => (x =? 60)%N = false) v ->
  trkpt_elements (v ++ r) = trkpt_elements r.
Proof.
  induction 1 as [| x v Hx _ IH]; [reflexivity |].
  cbn [app trkpt_elements].
  change (str "<trkpt") with [60; 116; 114; 107; 112; 116]%N.
  rewrite starts_with_head by (rewrite N.eqb_sym; exact Hx). exact IH.
Qed.
Section Serializer.
Variable NumberToString : number -> jsstring.

(** the document, piece by piece *)
Lemma createGPXXML_pieces pts :
  createGPXXML NumberToString pts
  = prologue ++ concat (map (element NumberToString) pts) ++ epilogue.
Proof.
  unfold createGPXXML. fold prologue.
  change (newline ++ str "</trkseg>" ++ newline ++ str "</trk>" ++ newline
          ++ str "</gpx>") with epilogue.
  rewrite (app_assoc prologue). f_equal.
  generalize prologue as acc.
  induction pts as [| p pts IH]; intros acc; cbn [fold_left map concat].
  - symmetry. apply app_nil_r.
  - rewrite IH. fold (element NumberToString p).
    rewrite (app_assoc acc). reflexivity.
Qed.

Lemma differs_starts_with p : forall s r,
  differs p s = true -> starts_with p (s ++ r) = false.
Proof.
  induction p as [| x p IH]; intros [| y s] r; cbn [differs];
    try discriminate.
  cbn [app starts_with]. destruct (x =? y)%N; cbn [negb orb andb]; auto.
Qed.

Lemma trkpt_elements_no_tag l r :
  no_tag l = true -> trkpt_elements (l ++ r) = trkpt_elements r.
Proof.
  induction l as [| c l IH]; [reflexivity |].
  cbn [no_tag]. intros H. apply andb_prop in H as [Hd Hl].
  change ((c :: l) ++ r) with (c :: (l ++ r)). cbn [trkpt_elements].
  change (c :: (l ++ r)) with ((c :: l) ++ r).
  rewrite (differs_starts_with _ _ r Hd). auto.
Qed.

Lemma strip_prefix_app p r : strip_prefix p (p ++ r) = Some r.
Proof.
  induction p as [| x p IH]; [destruct r; reflexivity |].
  cbn [app strip_prefix]. rewrite N.eqb_refl. exact IH.
Qed.

Lemma read_trkpt_shape a o h rest :
  plain a = true -> plain o = true -> plain h = true ->
  read_trkpt ((str "<trkpt lat=" ++ quote) ++ a
              ++ (quote ++ str " lon=" ++ quote) ++ o
              ++ (quote ++ str ">" ++ newline ++ str "<ele>") ++ h
              ++ str "</ele>" ++ rest)
  = Some {| lat := a; lon := o; ele := h |}.
Proof.
  intros Ha Ho Hh. unfold read_trkpt. rewrite strip_prefix_app.
  change ((quote ++ str " lon=" ++ quote) ++ o
          ++ (quote ++ str ">" ++ newline ++ str "<ele>") ++ h
          ++ str "</ele>" ++ rest)
    with (34%N :: (str " lon=" ++ quote) ++ o
          ++ (quote ++ str ">" ++ newline ++ str "<ele>") ++ h
          ++ str "</ele>" ++ rest).
  rewrite take_until_app by (apply plain_no; auto).
  change (34%N :: (str " lon=" ++ quote) ++ o
          ++ (quote ++ str ">" ++ newline ++ str "<ele>") ++ h
          ++ str "</ele>" ++ rest)
    with ((quote ++ str " lon=" ++ quote) ++ o
          ++ (quote ++ str ">" ++ newline ++ str "<ele>") ++ h
          ++ str "</ele>" ++ rest).
  rewrite strip_prefix_app.
  change ((quote ++ str ">" ++ newline ++ str "<ele>") ++ h
          ++ str "</ele>" ++ rest)
    with (34%N :: (str ">" ++ newline ++ str "<ele>") ++ h
          ++ str "</ele>" ++ rest).
  rewrite take_until_app by (apply plain_no; auto).
  change (34%N :: (str ">" ++ newline ++ str "<ele>") ++ h
          ++ str "</ele>" ++ rest)
    with ((quote ++ str ">" ++ newline ++ str "<ele>") ++ h
          ++ str "</ele>" ++ rest).
  rewrite strip_prefix_app.
  change (str "</ele>" ++ rest) with (60%N :: str "/ele>" ++ rest).
  rewrite take_until_app by (apply plain_no; auto).
  change (60%N :: str "/ele>" ++ rest) with (str "</ele>" ++ rest).
  rewrite strip_prefix_app. reflexivity.
Qed.

Lemma element_shape p rest :
  element NumberToString p ++ rest
  = newline
    ++ (str "<trkpt lat=" ++ quote) ++ NumberToString (latitude p)
    ++ (quote ++ str " lon=" ++ quote) ++ NumberToString (longitude p)
    ++ (quote ++ str ">" ++ newline ++ str "<ele>")
    ++ NumberToString (hdg_true p)
    ++ str "</ele>"
    ++ (newline ++ str "<time>") ++ timestamp p
    ++ (str "</time>" ++ newline ++ str "<cog>") ++ NumberToString (cog p)
    ++ (str "</cog>" ++ newline ++ str "<hdg_true>")
    ++ NumberToString (hdg_true p)
    ++ (str "</hdg_true>" ++ newline ++ str "<heel>")
    ++ NumberToString (heel p)
    ++ (str "</heel>" ++ newline ++ str "<trim>") ++ NumberToString (trim p)
    ++ (str "</trim>" ++ newline ++ str "</trkpt>") ++ rest.
Proof. unfold element. repeat rewrite <- app_assoc. reflexivity. Qed.

(** The element of a point is read back as one [trkpt], with the point's
    latitude, longitude and true heading. *)
Lemma trkpt_elements_element p rest :
  renders_plain NumberToString p = true ->
  trkpt_elements (element NumberToString p ++ rest)
  = shown NumberToString p :: trkpt_elements rest.
Proof.
  unfold renders_plain. intros H.
  repeat (apply andb_prop in H as [H ?]).
  rewrite element_shape.
  rewrite trkpt_elements_no_tag by (vm_compute; reflexivity).
  match goal with
  | |- trkpt_elements ?s = _ =>
      assert (R : read_trkpt s = shown NumberToString p)
        by (apply read_trkpt_shape; assumption)
  end.
  change ((str "<trkpt lat=" ++ quote) ++ ?x)
    with (60%N :: (str "trkpt lat=" ++ quote) ++ x) in *.
  cbn [trkpt_elements]. rewrite R.
  change (60%N :: (str "trkpt lat=" ++ quote) ++ ?x)
    with (str "<trkpt" ++ (str " lat=" ++ quote) ++ x).
  rewrite starts_with_app. f_equal.
  repeat first
    [ rewrite trkpt_elements_no_tag by (vm_compute; reflexivity)
    | rewrite trkpt_elements_plain by (apply plain_no; auto) ].
  reflexivity.
Qed.

Lemma trkpt_elements_elements pts rest :
  Forall (fun p => renders_plain NumberToString p = true) pts ->
  trkpt_elements (concat (map (element NumberToString) pts) ++ rest)
  = map (shown NumberToString) pts ++ trkpt_elements rest.
Proof.
  induction 1 as [| p pts Hp _ IH]; [reflexivity |].
  cbn [map concat app]. rewrite <- app_assoc.
  rewrite trkpt_elements_element by assumption. rewrite IH. reflexivity.
Qed.
End Serializer.
(** *** The points of [parseCSV] render as plain text *)

Lemma plain_app a b : plain (a ++ b) = plain a && plain b.
Proof. apply forallb_app. Qed.

Lemma plain_digit c :
  is_digit c = true -> negb ((c =? 60) || (c =? 34))%N = true.
Proof.
  unfold is_digit. intros H. apply andb_prop in H as [H1 H2].
  apply N.leb_le in H1, H2.
  destruct (N.eqb_spec c 60), (N.eqb_spec c 34); cbn; try reflexivity; lia.
Qed.

Lemma plain_digits ds :
  Forall (fun c => is_digit c = true) ds -> plain ds = true.
Proof.
  intros H. apply forallb_forall. rewrite Forall_forall in H.
  intros c Hc. apply plain_digit, H, Hc.
Qed.

Lemma decimal_digits_digits fuel :
  forall n, Forall (fun c => is_digit c = true) (decimal_digits fuel n).
Proof.
  induction fuel as [| fuel IH]; intros n; cbn [decimal_digits].
  - constructor.
  - apply Forall_app. split.
    + destruct (n <? 10)%Z; [constructor | apply IH].
    + constructor; [apply is_digit_mod | constructor].
Qed.

Lemma plain_sub ds n :
  plain ds = true -> plain (firstn n ds) = true /\ plain (skipn n ds) = true.
Proof.
  intros H. rewrite <- (firstn_skipn n ds), plain_app in H.
  apply andb_prop in H. exact H.
Qed.

Lemma plain_zeros n : plain (zeros n) = true.
Proof.
  unfold zeros. induction (Z.to_nat n) as [| k IH]; [reflexivity |].
  cbn [repeat plain forallb]. exact IH.
Qed.

Lemma plain_layout ds n : plain ds = true -> plain (layout ds n) = true.
Proof.
  intros H. unfold layout.
  pose proof (plain_digits _ (decimal_digits_digits 20 (Z.abs (n - 1)))) as D.
  generalize dependent (decimal_digits 20 (Z.abs (n - 1))). intros ex D.
  destruct (plain_sub ds (Z.to_nat n) H) as [H1 H2].
  destruct (_ && _).
  { rewrite plain_app, H, plain_zeros. reflexivity. }
  destruct (_ && _).
  { rewrite !plain_app, H1, H2. reflexivity. }
  destruct (_ && _).
  { rewrite !plain_app, H, plain_zeros. reflexivity. }
  destruct (n - 1 <? 0)%Z; destruct ds as [| d [| d' rest]];
    rewrite ?plain_app, ?D; try reflexivity;
    try (rewrite H; reflexivity);
    change (d :: d' :: rest) with ([d] ++ d' :: rest) in H;
    rewrite plain_app in H; apply andb_prop in H as [Hd Hrest];
    rewrite Hd, Hrest; reflexivity.
Qed.

Lemma digits_and_exponent_digits m e :
  Forall (fun c => is_digit c = true) (fst (digits_and_exponent m e)).
Proof.
  unfold digits_and_exponent.
  destruct (shortest_decimal _ _ _ _ _ _ _) as [d p].
  apply decimal_digits_digits.
Qed.

(** The reference [Number::toString] writes digits, signs, dots and
    letters only. *)
Lemma plain_Number_toString x : plain (Number_toString x) = true.
Proof.
  destruct x as [s | s | | s m e]; cbn [Number_toString].
  - reflexivity.
  - destruct s; reflexivity.
  - reflexivity.
  - rewrite plain_app. apply andb_true_intro. split; [destruct s; reflexivity |].
    pose proof (digits_and_exponent_digits m e) as D.
    destruct (digits_and_exponent m e) as [ds n].
    apply plain_layout, plain_digits, D.
Qed.

Lemma plain_pad w n : plain (pad w n) = true.
Proof. apply plain_digits, pad_digits. Qed.

Lemma plain_ISOString t : plain (ISOString t) = true.
Proof.
  unfold ISOString, year_string.
  destruct (_ && _); [| destruct (_ <? _)%Z];
    rewrite ?plain_app, ?plain_pad; reflexivity.
Qed.

Lemma parsed_points_render_plain DateParse csvText pts :
  parse DateParse csvText = Return pts ->
  Forall (fun p => renders_plain Number_toString p = true) pts.
Proof.
  intros Hp. apply parse_Return in Hp. subst pts.
  apply Forall_forall. intros p Hin.
  apply survivors_In in Hin as (line & _ & Hrow).
  apply row_point_coordinates in Hrow as (Hpt & _ & _).
  apply make_point_timestamp, parseTimestamp_Return in Hpt as (t & _ & Et).
  unfold renders_plain. rewrite Et, plain_ISOString, !plain_Number_toString.
  reflexivity.
Qed.

(** the [trkpt] tags of a whole document *)
Lemma trkpt_elements_document NumberToString pts :
  Forall (fun p => renders_plain NumberToString p = true) pts ->
  trkpt_elements (createGPXXML NumberToString pts)
  = map (shown NumberToString) pts.
Proof.
  intros H. rewrite createGPXXML_pieces.
  rewrite trkpt_elements_no_tag by (vm_compute; reflexivity).
  rewrite trkpt_elements_elements by assumption.
  replace (trkpt_elements epilogue) with (@nil (option trkpt))
    by (vm_compute; reflexivity).
  apply app_nil_r.
Qed.

(** Whatever input [parseCSV] accepts, the document made of its points has
    one [trkpt] per point, on a host that prints numbers as the reference
    does. *)
Lemma converted_document_trkpts DateParse csvText pts :
  parse DateParse csvText = Return pts ->
  trkpt_elements (createGPXXML Number_toString pts)
  = map (shown Number_toString) pts.
Proof.
  intros H. apply trkpt_elements_document.
  exact (parsed_points_render_plain DateParse csvText pts H).
Qed.

(** C2: for every sequence of N points that render as plain text,
    [createGPXXML] writes a document in which exactly N [trkpt] tags open,
    one per point and in the order of the points; each is an element with
    the point's latitude and longitude as its [lat] and [lon] attributes
    and with the point's true heading, not an elevation, as the text of its
    [ele] child. *)
Theorem createGPXXML_trkpt_per_point NumberToString pts :
  Forall (fun p => renders_plain NumberToString p = true) pts ->
  trkpt_elements (createGPXXML NumberToString pts)
  = map (fun p => Some {| lat := NumberToString (latitude p);
                          lon := NumberToString (longitude p);
                          ele := NumberToString (hdg_true p) |}) pts
  /\ length (trkpt_elements (createGPXXML NumberToString pts)) = length pts.
Proof.
  intros H. pose proof (trkpt_elements_document NumberToString pts H) as E.
  split; [exact E |]. rewrite E. apply length_map.
Qed.

Lemma createGPXXML_trkpt_per_point_witness :
  Forall (fun p => renders_plain Number_toString p = true) sample_points
  /\ trkpt_elements (createGPXXML Number_toString sample_points)
     = [Some {| lat := str "25.1"; lon := str "55.2"; ele := str "180" |};
        Some {| lat := str "25.2"; lon := str "55.3"; ele := str "181" |}].
Proof.
  assert (H : Forall (fun p => renders_plain Number_toString p = true)
                     sample_points).
  { let pts := eval vm_compute in sample_points in
    change sample_points with pts.
    repeat constructor. }
  split; [exact H |].
  destruct (createGPXXML_trkpt_per_point Number_toString sample_points H)
    as [E _].
  rewrite E. vm_compute. reflexivity.
Defined.

(** * Further properties of the code *)

(** ** [knotsToMps] *)

Lemma shr_1_nonneg mrs : (0 <= shr_m mrs)%Z -> (0 <= shr_m (shr_1 mrs))%Z.
Proof.
  destruct mrs as [m r s]. destruct m as [| p | p]; cbn; try lia;
    destruct p; cbn; lia.
Qed.

Lemma iter_shr_1_nonneg p :
  forall mrs, (0 <= shr_m mrs)%Z -> (0 <= shr_m (iter_pos shr_1 p mrs))%Z.
Proof.
  induction p as [p IH | p IH |]; intros mrs H; cbn [iter_pos].
  - apply IH, IH, shr_1_nonneg, H.
  - apply IH, IH, H.
  - apply shr_1_nonneg, H.
Qed.

Lemma shr_fexp_nonneg m e l :
  (0 <= m)%Z -> (0 <= shr_m (fst (shr_fexp prec emax m e l)))%Z.
Proof.
  intros H. unfold shr_fexp, shr.
  assert (R : (0 <= shr_m (shr_record_of_loc m l))%Z)
    by (destruct l as [| []]; exact H).
  destruct (_ - e)%Z; cbn [fst]; try exact R.
  apply iter_shr_1_nonneg, R.
Qed.

Lemma round_nearest_even_nonneg m l :
  (0 <= m)%Z -> (0 <= round_nearest_even m l)%Z.
Proof.
  intros H. destruct l as [| []]; cbn; try lia. destruct (Z.even m); lia.
Qed.

(** rounding a mantissa that is not negative never gives NaN *)
Lemma binary_round_aux_not_NaN s m e l :
  (0 <= m)%Z -> isNaN (binary_round_aux prec emax s m e l) = false.
Proof.
  intros H. unfold binary_round_aux.
  pose proof (shr_fexp_nonneg m e l H) as H1.
  destruct (shr_fexp prec emax m e l) as [mrs' e'].
  cbn [fst] in H1.
  pose proof (shr_fexp_nonneg _ e' loc_Exact
                (round_nearest_even_nonneg _ (loc_of_shr_record mrs') H1)) as H2.
  destruct (shr_fexp prec emax _ e' loc_Exact) as [mrs'' e''].
  cbn [fst] in H2.
  destruct (shr_m mrs''); [reflexivity | | lia].
  destruct (_ <=? _)%Z; reflexivity.
Qed.

(** X1: [knotsToMps] gives NaN for NaN and for nothing else; a zero and
    an infinity come back as they are, sign included. *)
Theorem knotsToMps_NaN_only_from_NaN :
  (forall knots, isNaN (knotsToMps knots) = isNaN knots)
  /\ (forall s, knotsToMps (S754_zero s) = S754_zero s)
  /\ (forall s, knotsToMps (S754_infinity s) = S754_infinity s).
Proof.
  split; [| split]; try (intros []; reflexivity).
  intros [s | s | | s m e]; try reflexivity.
  unfold knotsToMps, mps_per_knot, SFmul.
  apply binary_round_aux_not_NaN. lia.
Qed.

(** ** More on [parseTimestamp] *)

Section TimestampsMore.
Variable DateParse : jsstring -> option Z.


(** X3: two timestamps are normalized to the same text exactly when the
    Date constructor gives them the same time value. *)
Theorem same_text_same_instant v1 v2 out1 out2 :
  parseTimestamp DateParse v1 = Return out1 ->
  parseTimestamp DateParse v2 = Return out2 ->
  (out1 = out2 <-> newDate DateParse v1 = newDate DateParse v2).
Proof.
  intros H1 H2.
  apply parseTimestamp_Return in H1 as (t1 & D1 & ->).
  apply parseTimestamp_Return in H2 as (t2 & D2 & ->).
  rewrite D1, D2. split.
  - intros E. apply newDate_Some in D1 as [R1 _], D2 as [R2 _].
    pose proof (iso_parse_ISOString t1 R1) as P1.
    rewrite E, (iso_parse_ISOString t2 R2) in P1. congruence.
  - intros [= ->]. reflexivity.
Qed.
End TimestampsMore.


Lemma same_text_same_instant_witness :
  (parseTimestamp iso_parse (string_value offset_timestamp)
   = Return (str "2025-11-20T04:07:30.060Z")
   /\ parseTimestamp iso_parse (string_value (str "2025-11-20T04:07:30.060Z"))
      = Return (str "2025-11-20T04:07:30.060Z"))
  /\ newDate iso_parse (string_value offset_timestamp)
     = newDate iso_parse (string_value (str "2025-11-20T04:07:30.060Z")).
Proof.
  assert (P : parseTimestamp iso_parse (string_value offset_timestamp)
              = Return (str "2025-11-20T04:07:30.060Z"))
    by (vm_compute; reflexivity).
  assert (Q : parseTimestamp iso_parse
                (string_value (str "2025-11-20T04:07:30.060Z"))
              = Return (str "2025-11-20T04:07:30.060Z"))
    by (vm_compute; reflexivity).
  split; [split; assumption |].
  apply (same_text_same_instant iso_parse _ _ _ _ P Q). reflexivity.
Defined.
(** ** The replacement of [parseTimestamp] *)

Lemma span_digits_keeps c r : In c r -> is_digit c = false -> In c (snd (span_digits r)).
Proof.
  intros Hin Hc. induction r as [| x r IH]; [contradiction |].
  cbn [span_digits]. destruct (is_digit x) eqn:Hx.
  - destruct Hin as [-> | Hin]; [congruence |].
    specialize (IH Hin). destruct (span_digits r). exact IH.
  - exact Hin.
Qed.

(** the expression matches nowhere before the last dot of a text *)
Lemma match_ms_before_dot x r : In 46%N r -> match_ms (x :: r) = None.
Proof.
  intros Hin. destruct r as [| a [| b [| c r]]]; cbn [match_ms]; try reflexivity.
  destruct (x =? 46)%N; [| reflexivity]. cbn [andb].
  destruct (is_digit a) eqn:Ha; [| reflexivity].
  destruct (is_digit b) eqn:Hb; [| reflexivity].
  destruct (is_digit c) eqn:Hc; [| reflexivity]. cbn [andb].
  destruct Hin as [E | [E | [E | Hin]]];
    try (subst; vm_compute in Ha, Hb, Hc; discriminate).
  apply (span_digits_keeps 46%N r) in Hin; [| reflexivity].
  destruct (snd (span_digits r)) as [| y [| z t]]; cbn [jseqb]; try reflexivity.
  - change (str "Z") with [90%N]. cbn [jseqb].
    destruct Hin as [E | []]. subst y. reflexivity.
  - change (str "Z") with [90%N]. cbn [jseqb]. rewrite andb_false_r.
    reflexivity.
Qed.

Lemma span_digits_app ds z r :
  Forall (fun c => is_digit c = true) ds -> is_digit z = false ->
  span_digits (ds ++ z :: r) = (ds, z :: r).
Proof.
  intros H Hz. induction H as [| d ds Hd _ IH]; cbn [app span_digits].
  - rewrite Hz. reflexivity.
  - rewrite Hd, IH. reflexivity.
Qed.

(** X4: on any text that closes with a dot, three digits or more and [Z],
    the replacement of [parseTimestamp] keeps the first three digits after
    that dot and drops the others, whatever comes before the dot. *)
Theorem replace_ms_keeps_three_digits pre a b c ds :
  is_digit a = true -> is_digit b = true -> is_digit c = true ->
  Forall (fun d => is_digit d = true) ds ->
  replace_ms (pre ++ str "." ++ [a; b; c] ++ ds ++ str "Z")
  = pre ++ str "." ++ [a; b; c] ++ str "Z".
Proof.
  intros Ha Hb Hc Hds. change (str ".") with [46%N]. change (str "Z") with [90%N].
  induction pre as [| x pre IH].
  - cbn [app replace_ms match_ms N.eqb Pos.eqb]. rewrite Ha, Hb, Hc.
    rewrite span_digits_app by (assumption || reflexivity). reflexivity.
  - cbn [app replace_ms] in *. rewrite match_ms_before_dot, IH; [reflexivity |].
    apply in_or_app. right. left. reflexivity.
Qed.

(** X5: whenever [toISOString] returns, [parseTimestamp] returns the very
    same text: on the texts [toISOString] gives, the replacement changes
    nothing. *)
Theorem parseTimestamp_is_toISOString DateParse v iso :
  toISOString (newDate DateParse v) = Return iso ->
  parseTimestamp DateParse v = Return iso.
Proof.
  destruct (newDate DateParse v) as [t |] eqn:E; cbn [toISOString];
    [| discriminate].
  intros [= <-]. apply parseTimestamp_valid, E.
Qed.

Lemma replace_ms_keeps_three_digits_witness :
  (is_digit 48 = true /\ Forall (fun d => is_digit d = true) (str "123"))
  /\ replace_ms (str "2025-11-20T04:07:30.060123Z")
     = str "2025-11-20T04:07:30.060Z".
Proof.
  assert (D : is_digit 48 = true) by reflexivity.
  assert (D6 : is_digit 54 = true) by reflexivity.
  assert (F : Forall (fun d => is_digit d = true) (str "123"))
    by (repeat constructor).
  split; [split; assumption |].
  exact (replace_ms_keeps_three_digits (str "2025-11-20T04:07:30")
           48 54 48 (str "123") D D6 D F).
Defined.

Lemma parseTimestamp_is_toISOString_witness :
  toISOString (newDate iso_parse (string_value offset_timestamp))
  = Return (str "2025-11-20T04:07:30.060Z")
  /\ parseTimestamp iso_parse (string_value offset_timestamp)
     = Return (str "2025-11-20T04:07:30.060Z").
Proof.
  assert (T : toISOString (newDate iso_parse (string_value offset_timestamp))
              = Return (str "2025-11-20T04:07:30.060Z"))
    by (vm_compute; reflexivity).
  split; [exact T |].
  exact (parseTimestamp_is_toISOString iso_parse _ _ T).
Defined.
(** ** White space around the text and around the lines *)

Lemma trimStart_blank a s : blank a -> trimStart (a ++ s) = trimStart s.
Proof.
  induction 1 as [| c a Hc _ IH]; [reflexivity |].
  cbn [app trimStart]. rewrite Hc. exact IH.
Qed.

Lemma trimStart_app_blank s b :
  blank b ->
  trimStart (s ++ b) = match trimStart s with
                       | [] => []
                       | t => t ++ b
                       end.
Proof.
  intros Hb. induction s as [| c s IH]; cbn [app trimStart].
  - rewrite <- (app_nil_r b). rewrite (trimStart_blank b [] Hb). reflexivity.
  - destruct (is_whitespace c); [exact IH | reflexivity].
Qed.

Lemma blank_rev b : blank b -> blank (rev b).
Proof. intros H. apply Forall_rev, H. Qed.

Lemma trimEnd_blank s b : blank b -> trimEnd (s ++ b) = trimEnd s.
Proof.
  intros H. unfold trimEnd. rewrite rev_app_distr.
  rewrite (trimStart_blank _ _ (blank_rev b H)). reflexivity.
Qed.

(** [trim] does not see white space around a text *)
Lemma trim_blank a s b :
  blank a -> blank b -> JsString.trim (a ++ s ++ b) = JsString.trim s.
Proof.
  intros Ha Hb. unfold JsString.trim.
  rewrite (trimStart_blank a _ Ha), (trimStart_app_blank s b Hb).
  destruct (trimStart s) as [| c t] eqn:E; [reflexivity |].
  apply trimEnd_blank, Hb.
Qed.

(** X6: white space, line ends included, before and after the whole text
    changes nothing of what [parseCSV] returns, throws or writes to the
    console: a file may begin or end with empty lines. *)
Theorem parseCSV_ignores_outer_blank DateParse a csvText b :
  blank a -> blank b ->
  parseCSV DateParse (a ++ csvText ++ b) = parseCSV DateParse csvText.
Proof.
  intros Ha Hb. unfold parseCSV. rewrite (trim_blank a csvText b Ha Hb).
  reflexivity.
Qed.

Lemma parseCSV_ignores_outer_blank_witness :
  (blank (newline ++ newline) /\ blank (str "  " ++ newline))
  /\ parseCSV iso_parse ((newline ++ newline) ++ two_rows_csv
                         ++ (str "  " ++ newline))
     = parseCSV iso_parse two_rows_csv.
Proof.
  assert (A : blank (newline ++ newline)) by (repeat constructor).
  assert (B : blank (str "  " ++ newline)) by (repeat constructor).
  split; [split; assumption |].
  exact (parseCSV_ignores_outer_blank iso_parse _ two_rows_csv _ A B).
Defined.

Lemma blank_not_comma c : is_whitespace c = true -> (c =? 44)%N = false.
Proof.
  intros H. destruct (N.eqb_spec c 44) as [-> |]; [| reflexivity].
  vm_compute in H. discriminate.
Qed.

Lemma split_cons_piece c s :
  (c =? 44)%N = false ->
  exists p ps, split 44 s = p :: ps /\ split 44 (c :: s) = (c :: p) :: ps.
Proof.
  intros H. cbn [split]. rewrite H.
  destruct (split 44 s) as [| p ps] eqn:E.
  - exfalso. exact (split_not_nil 44 s E).
  - eauto.
Qed.

Lemma Forall2_same {A} (R : A -> A -> Prop) l :
  (forall x, R x x) -> Forall2 R l l.
Proof. intros H. induction l; constructor; auto. Qed.

(** white space before a line lengthens its first piece at the front *)
Lemma split_blank_before a s :
  blank a ->
  Forall2 (fun p p' => exists x, blank x /\ p' = x ++ p)
          (split 44 s) (split 44 (a ++ s)).
Proof.
  induction 1 as [| c a Hc Ha IH]; cbn [app].
  - apply Forall2_same. intros p. exists []. split; [constructor | reflexivity].
  - destruct (split_cons_piece c (a ++ s) (blank_not_comma c Hc))
      as (p & ps & E & ->).
    rewrite E in IH.
    inversion IH as [| q p' qs ps' (x & Hx & ->) Hrest]; subst.
    constructor; [| exact Hrest].
    exists (c :: x). split; [constructor; assumption | reflexivity].
Qed.

(** white space after a line lengthens its last piece at the back *)
Lemma split_blank_after s b :
  blank b ->
  Forall2 (fun p p' => exists y, blank y /\ p' = p ++ y)
          (split 44 s) (split 44 (s ++ b)).
Proof.
  intros Hb. induction s as [| c s IH]; cbn [app].
  - pose proof (split_blank_before b [] Hb) as H.
    rewrite app_nil_r in H. cbn [split] in H.
    inversion H as [| ? p' ? ps' (x & Hx & E) Hrest]; subst.
    inversion Hrest; subst. constructor; [| constructor].
    exists x. split; [assumption |]. rewrite app_nil_r. reflexivity.
  - cbn [split]. destruct (c =? 44)%N eqn:Ec.
    + constructor; [| exact IH].
      exists []. split; [constructor | reflexivity].
    + destruct (split 44 s) as [| p ps] eqn:E;
        [exfalso; exact (split_not_nil 44 s E) |].
      inversion IH as [| ? p' ? ps' (y & Hy & ->) Hrest]; subst.
      constructor; [| exact Hrest].
      exists y. split; [assumption | reflexivity].
Qed.

Lemma map_Forall2 {A B} (R : A -> A -> Prop) (f : A -> B) l l' :
  Forall2 R l l' -> (forall x y, R x y -> f y = f x) -> map f l' = map f l.
Proof.
  intros H Hf. induction H; cbn [map]; [reflexivity |].
  f_equal; auto.
Qed.

(** the cells of a line do not see white space around the line *)
Lemma cells_padded line line' : padded line line' -> cells line' = cells line.
Proof.
  intros (a & b & Ha & Hb & ->). unfold cells.
  transitivity (map (fun v => remove_quotes (JsString.trim v))
                    (split 44 (line ++ b))).
  - apply (map_Forall2 _ _ _ _ (split_blank_before a (line ++ b) Ha)).
    intros p p' (x & Hx & ->).
    rewrite <- (app_nil_r p) at 1.
    rewrite (trim_blank x p [] Hx (Forall_nil _)). reflexivity.
  - apply (map_Forall2 _ _ _ _ (split_blank_after line b Hb)).
    intros p p' (y & Hy & ->).
    change (p ++ y) with ([] ++ p ++ y).
    rewrite (trim_blank [] p y (Forall_nil _) Hy). reflexivity.
Qed.

Section LinePadding.
Variable DateParse : jsstring -> option Z.

Lemma loop_body_cells headers i line line' st :
  cells line' = cells line ->
  loop_body DateParse headers i line' st = loop_body DateParse headers i line st.
Proof. intros E. unfold loop_body. rewrite E. reflexivity. Qed.

Lemma for_loop_cells headers rows rows' :
  Forall2 (fun l l' => cells l' = cells l) rows rows' ->
  forall i st,
    for_loop DateParse headers rows' i st = for_loop DateParse headers rows i st.
Proof.
  induction 1 as [| l l' rows rows' E _ IH]; intros i st; cbn [for_loop];
    [reflexivity |].
  rewrite (loop_body_cells headers i l l' st E). apply IH.
Qed.

(** X7: white space at the two ends of any line, the header included,
    changes nothing of what [parseCSV] returns, throws or writes to the
    console; so the carriage return that closes each line of a file with
    CR LF line ends is harmless. *)
Theorem parseLines_ignores_line_padding lines lines' :
  Forall2 padded lines lines' ->
  parseLines DateParse lines' = parseLines DateParse lines.
Proof.
  intros H.
  assert (C : Forall2 (fun l l' => cells l' = cells l) lines lines').
  { eapply Forall2_impl; [| exact H]. apply cells_padded. }
  unfold parseLines. rewrite <- (Forall2_length H).
  destruct C as [| l l' rows rows' E C]; [reflexivity |].
  cbn [nth tl]. rewrite E, (for_loop_cells _ _ _ C). reflexivity.
Qed.
End LinePadding.

Lemma parseLines_ignores_line_padding_witness :
  Forall2 padded (lines_of two_rows_csv)
          (map (fun l => l ++ [13%N]) (lines_of two_rows_csv))
  /\ parseLines iso_parse (map (fun l => l ++ [13%N]) (lines_of two_rows_csv))
     = parseLines iso_parse (lines_of two_rows_csv).
Proof.
  assert (P : Forall2 padded (lines_of two_rows_csv)
                (map (fun l => l ++ [13%N]) (lines_of two_rows_csv))).
  { induction (lines_of two_rows_csv) as [| l ls IH]; cbn [map]; constructor;
      [| exact IH].
    exists [], [13%N]. repeat split; repeat constructor. }
  split; [exact P |].
  exact (parseLines_ignores_line_padding iso_parse _ _ P).
Defined.
(** ** Lines without a comma *)

Lemma includes_In headers c : includes headers c = true -> In c headers.
Proof.
  unfold includes. intros H. apply existsb_exists in H as (x & Hx & E).
  apply jseqb_eq in E. subst. exact Hx.
Qed.

Lemma expectedColumns_NoDup : NoDup expectedColumns.
Proof.
  assert (D : forall l : list jsstring,
             (fix distinct (l : list jsstring) : bool :=
                match l with
                | [] => true
                | x :: r => negb (includes r x) && distinct r
                end) l = true -> NoDup l).
  { induction l as [| x r IH]; intros H; constructor.
    - intros Hin. apply andb_prop in H as [H _].
      apply negb_true_iff in H. unfold includes in H.
      assert (E : existsb (jseqb x) r = true)
        by (apply existsb_exists; exists x; split;
            [exact Hin | apply jseqb_refl]).
      congruence.
    - apply IH. apply andb_prop in H as [_ H]. exact H. }
  apply D. vm_compute. reflexivity.
Qed.

(** a header with the required columns has eight cells at least *)
Lemma required_header_length headers :
  has_required_columns headers = true -> 8 <= length headers.
Proof.
  intros H. change 8 with (length expectedColumns).
  apply NoDup_incl_length; [apply expectedColumns_NoDup |].
  intros c Hc. apply includes_In.
  unfold has_required_columns in H. rewrite forallb_forall in H. auto.
Qed.

(** X8: under a header that has the required columns, a line without a
    comma, an empty line among them, is skipped in silence: it has one
    cell where the header has eight or more, so its turn of the loop leaves
    the points and the console as they were. *)
Theorem comma_free_line_is_skipped DateParse headers i line st :
  has_required_columns headers = true ->
  ~ In 44%N line ->
  loop_body DateParse headers i line st = st
  /\ row_point DateParse headers line = None.
Proof.
  intros Hreq Hline.
  assert (L : length (cells line) = 1).
  { unfold cells. rewrite length_map, split_length.
    rewrite (proj1 (count_occ_not_In N.eq_dec line 44%N) Hline). reflexivity. }
  pose proof (required_header_length headers Hreq) as H8.
  assert (E : (length (cells line) =? length headers) = false)
    by (apply Nat.eqb_neq; lia).
  unfold loop_body, row_point. rewrite E. split; reflexivity.
Qed.

Lemma comma_free_line_is_skipped_witness :
  (has_required_columns (cells header_line) = true /\ ~ In 44%N [])
  /\ loop_body iso_parse (cells header_line) 3 []
       {| points := sample_points; console := [] |}
     = {| points := sample_points; console := [] |}.
Proof.
  assert (H : has_required_columns (cells header_line) = true)
    by (vm_compute; reflexivity).
  assert (N : ~ In 44%N []) by (intros []).
  split; [split; assumption |].
  exact (proj1 (comma_free_line_is_skipped iso_parse _ 3 [] _ H N)).
Defined.

(** ** The row object *)

Lemma obj_get_set_other row k x v :
  jseqb k x = false -> obj_get (obj_set row x v) k = obj_get row k.
Proof.
  intros H. unfold obj_set. destruct (jseqb x (str "__proto__")); [reflexivity |].
  cbn [obj_get]. rewrite H. reflexivity.
Qed.

Lemma jseqb_neq a b : a <> b -> jseqb a b = false.
Proof.
  intros H. destruct (jseqb a b) eqn:E; [| reflexivity].
  apply jseqb_eq in E. contradiction.
Qed.

Lemma fill_row_other headers k :
  ~ In k headers ->
  forall values i row,
    obj_get (fill_row headers values i row) k = obj_get row k.
Proof.
  induction headers as [| h headers IH]; intros Hk values i row;
    cbn [fill_row]; [reflexivity |].
  rewrite IH by (intros Hin; apply Hk; right; exact Hin).
  apply obj_get_set_other, jseqb_neq. intros ->. apply Hk. left. reflexivity.
Qed.

Lemma fill_row_app a b values :
  forall i row,
    fill_row (a ++ b) values i row
    = fill_row b values (i + length a) (fill_row a values i row).
Proof.
  induction a as [| h a IH]; intros i row; cbn [app fill_row length].
  - rewrite Nat.add_0_r. reflexivity.
  - rewrite IH. f_equal. lia.
Qed.

(** X10: a field of the row object is read from the last column that
    bears its name: with the name at place n of the header and not after
    it, [row.name] is the cell at place n of the line, or [undefined] when
    the line has no such cell. *)
Theorem field_is_last_column_of_its_name before k after line :
  ~ In k after ->
  k <> str "__proto__" ->
  obj_get (row_of (before ++ k :: after) line) k
  = array_get (cells line) (length before).
Proof.
  intros Hafter Hproto. unfold row_of.
  rewrite fill_row_app. cbn [fill_row].
  rewrite fill_row_other by assumption.
  unfold obj_set. rewrite (jseqb_neq _ _ Hproto). cbn [obj_get].
  rewrite jseqb_refl. reflexivity.
Qed.

Lemma field_is_last_column_of_its_name_witness :
  (~ In (str "latitude") [str "cog"] /\ str "latitude" <> str "__proto__")
  /\ obj_get (row_of ([str "latitude"] ++ str "latitude" :: [str "cog"])
                     (str "1,2,3"))
             (str "latitude")
     = string_value (str "2").
Proof.
  assert (A : ~ In (str "latitude") [str "cog"])
    by (intros [H | []]; vm_compute in H; discriminate).
  assert (P : str "latitude" <> str "__proto__")
    by (vm_compute; discriminate).
  split; [split; assumption |].
  exact (field_is_last_column_of_its_name [str "latitude"] _ [str "cog"]
           (str "1,2,3") A P).
Defined.
(** ** A column more *)

Lemma split_app a b : split 44 (a ++ 44%N :: b) = split 44 a ++ split 44 b.
Proof.
  induction a as [| c a IH]; cbn [app split].
  - reflexivity.
  - rewrite IH. destruct (c =? 44)%N; [reflexivity |].
    destruct (split 44 a) as [| p ps] eqn:E;
      [exfalso; exact (split_not_nil 44 a E) | reflexivity].
Qed.

Lemma split_comma_free b : ~ In 44%N b -> split 44 b = [b].
Proof.
  induction b as [| c b IH]; intros H; cbn [split]; [reflexivity |].
  destruct (N.eqb_spec c 44) as [-> | _].
  - exfalso. apply H. left. reflexivity.
  - rewrite IH by (intros Hin; apply H; right; exact Hin). reflexivity.
Qed.

Lemma cells_app a b :
  ~ In 44%N b ->
  cells (a ++ 44%N :: b) = cells a ++ [remove_quotes (JsString.trim b)].
Proof.
  intros H. unfold cells. rewrite split_app, map_app, (split_comma_free b H).
  reflexivity.
Qed.

Lemma array_get_app values more i :
  i < length values -> array_get (values ++ more) i = array_get values i.
Proof.
  intros H. unfold array_get. rewrite nth_error_app1 by exact H. reflexivity.
Qed.

Lemma fill_row_values_app headers values more :
  forall i row,
    i + length headers <= length values ->
    fill_row headers (values ++ more) i row = fill_row headers values i row.
Proof.
  induction headers as [| h headers IH]; intros i row H; cbn [fill_row length] in *;
    [reflexivity |].
  rewrite array_get_app by lia. apply IH. lia.
Qed.

Lemma not_required x :
  includes expectedColumns x = false ->
  forall k, In k expectedColumns -> jseqb k x = false.
Proof.
  intros H k Hk. apply jseqb_neq. intros ->.
  assert (E : includes expectedColumns x = true).
  { unfold includes. apply existsb_exists. exists x.
    split; [exact Hk | apply jseqb_refl]. }
  congruence.
Qed.

Section ColumnMore.
Variable DateParse : jsstring -> option Z.

(** [make_point] reads the eight required fields and no other *)
Lemma make_point_set row x v :
  includes expectedColumns x = false ->
  make_point DateParse (obj_set row x v) = make_point DateParse row.
Proof.
  intros H. pose proof (not_required x H) as N. unfold make_point.
  rewrite !obj_get_set_other
    by (apply N; unfold expectedColumns; cbn [map In]; auto 10).
  reflexivity.
Qed.

Lemma loop_body_appended headers x i r v st :
  includes expectedColumns (remove_quotes (JsString.trim x)) = false ->
  ~ In 44%N v ->
  loop_body DateParse (headers ++ [remove_quotes (JsString.trim x)]) i
            (r ++ 44%N :: v) st
  = loop_body DateParse headers i r st.
Proof.
  intros Hx Hv. unfold loop_body. rewrite (cells_app r v Hv).
  rewrite !length_app. cbn [length].
  replace (length (cells r) + 1 =? length headers + 1)
    with (length (cells r) =? length headers)
    by (destruct (Nat.eqb_spec (length (cells r)) (length headers));
        symmetry; [apply Nat.eqb_eq | apply Nat.eqb_neq]; lia).
  destruct (Nat.eqb_spec (length (cells r)) (length headers)) as [E | _];
    cbn [negb]; [| reflexivity].
  rewrite fill_row_app. cbn [fill_row].
  rewrite fill_row_values_app by (cbn; lia).
  rewrite make_point_set by assumption. reflexivity.
Qed.

Lemma for_loop_appended headers x (rvs : list (jsstring * jsstring)) :
  includes expectedColumns (remove_quotes (JsString.trim x)) = false ->
  Forall (fun rv => ~ In 44%N (snd rv)) rvs ->
  forall i st,
    for_loop DateParse (headers ++ [remove_quotes (JsString.trim x)])
             (map (fun rv => fst rv ++ 44%N :: snd rv) rvs) i st
    = for_loop DateParse headers (map fst rvs) i st.
Proof.
  intros Hx H. induction H as [| rv rvs Hv _ IH]; intros i st;
    cbn [map for_loop]; [reflexivity |].
  rewrite loop_body_appended by assumption. apply IH.
Qed.

Lemma includes_app headers x c :
  includes (headers ++ [x]) c = includes headers c || jseqb c x.
Proof.
  unfold includes. rewrite existsb_app. cbn [existsb].
  rewrite orb_false_r. reflexivity.
Qed.

(** X9: a column more at the end of the header, under a name that is not
    one of the eight, with a cell more at the end of every data row, is
    ignored: [parseCSV] returns, throws and warns as without it. *)
Theorem appended_column_is_ignored header x (rvs : list (jsstring * jsstring)) :
  ~ In 44%N x ->
  includes expectedColumns (remove_quotes (JsString.trim x)) = false ->
  Forall (fun rv => ~ In 44%N (snd rv)) rvs ->
  parseLines DateParse
    ((header ++ 44%N :: x) :: map (fun rv => fst rv ++ 44%N :: snd rv) rvs)
  = parseLines DateParse (header :: map fst rvs).
Proof.
  intros Hx Hname Hrows. unfold parseLines.
  destruct rvs as [| rv rvs]; [reflexivity |].
  cbn [length nth tl]. rewrite !length_map. cbn [length Nat.ltb Nat.leb].
  rewrite (cells_app header x Hx).
  replace (filter _ expectedColumns)
    with (filter (fun col => negb (includes (cells header) col)) expectedColumns).
  - rewrite for_loop_appended by assumption. reflexivity.
  - apply filter_ext_in. intros c Hc.
    rewrite includes_app, (not_required _ Hname c Hc), orb_false_r.
    reflexivity.
Qed.
End ColumnMore.

Lemma appended_column_is_ignored_witness :
  (~ In 44%N (str " note")
   /\ includes expectedColumns (remove_quotes (JsString.trim (str " note")))
      = false
   /\ Forall (fun rv => ~ In 44%N (snd rv))
             (map (fun r => (r, str "fine")) (data_rows two_rows_csv)))
  /\ parseLines iso_parse
       ((header_line ++ 44%N :: str " note")
        :: map (fun rv => fst rv ++ 44%N :: snd rv)
               (map (fun r => (r, str "fine")) (data_rows two_rows_csv)))
     = parseLines iso_parse
         (header_line
          :: map fst (map (fun r => (r, str "fine")) (data_rows two_rows_csv))).
Proof.
  assert (A : ~ In 44%N (str " note"))
    by (vm_compute; intuition discriminate).
  assert (B : includes expectedColumns
                (remove_quotes (JsString.trim (str " note"))) = false)
    by (vm_compute; reflexivity).
  assert (C : Forall (fun rv => ~ In 44%N (snd rv))
                (map (fun r => (r, str "fine")) (data_rows two_rows_csv))).
  { apply Forall_forall. intros rv Hin. apply in_map_iff in Hin as (r & <- & _).
    vm_compute. intuition discriminate. }
  split; [repeat split; assumption |].
  exact (appended_column_is_ignored iso_parse header_line _ _ A B C).
Defined.
(** ** Every row ends somewhere *)

Section Accounting.
Variable DateParse : jsstring -> option Z.

Lemma loop_body_accounts headers i line st :
  length (points (loop_body DateParse headers i line st))
  + length (console (loop_body DateParse headers i line st))
  + (if ragged headers line then 1 else 0)
  = length (points st) + length (console st) + 1.
Proof.
  unfold loop_body, ragged.
  destruct (negb (length (cells line) =? length headers)); [lia |].
  destruct (make_point DateParse _) as [p | e];
    [destruct (isNaN (latitude p) || isNaN (longitude p)) |];
    cbn [push console_warn points console]; rewrite length_app; cbn [length];
    lia.
Qed.

Lemma for_loop_accounts headers rows :
  forall i st,
    length (points (for_loop DateParse headers rows i st))
    + length (console (for_loop DateParse headers rows i st))
    + length (filter (ragged headers) rows)
    = length (points st) + length (console st) + length rows.
Proof.
  induction rows as [| line rows IH]; intros i st; cbn [for_loop filter length].
  - lia.
  - pose proof (IH (S i) (loop_body DateParse headers i line st)) as H.
    pose proof (loop_body_accounts headers i line st) as B.
    destruct (ragged headers line); cbn [length]; lia.
Qed.

(** X11: when [parseCSV] returns, every data row is accounted for once:
    the points returned, the warnings written to the console and the
    rows whose number of cells is not the header's add up to the number of
    data rows. *)
Theorem every_row_is_accounted_for csvText pts warnings :
  parseCSV DateParse csvText = (Return pts, warnings) ->
  length pts + length warnings
  + length (filter (ragged (header_cells csvText)) (data_rows csvText))
  = length (data_rows csvText).
Proof.
  unfold parseCSV, parseLines. fold (lines_of csvText).
  destruct (length (lines_of csvText) <? 2); [discriminate |].
  fold (header_cells csvText). fold (data_rows csvText).
  destruct (0 <? length _); [discriminate |].
  pose proof (for_loop_accounts (header_cells csvText) (data_rows csvText) 1
                {| points := []; console := [] |}) as H.
  destruct (for_loop DateParse _ _ 1 _) as [ps ws]. cbn [points console] in *.
  destruct (length ps =? 0); [discriminate |].
  intros [= <- <-]. cbn [length] in H. lia.
Qed.

Lemma for_loop_app headers a b :
  forall i st,
    for_loop DateParse headers (a ++ b) i st
    = for_loop DateParse headers b (i + length a)
        (for_loop DateParse headers a i st).
Proof.
  induction a as [| l a IH]; intros i st; cbn [app for_loop length].
  - rewrite Nat.add_0_r. reflexivity.
  - rewrite IH. f_equal. lia.
Qed.

Lemma console_grows headers rows :
  forall i st w,
    In w (console st) -> In w (console (for_loop DateParse headers rows i st)).
Proof.
  induction rows as [| l rows IH]; intros i st w H; cbn [for_loop]; [exact H |].
  apply IH. unfold loop_body.
  destruct (negb _); [exact H |].
  destruct (make_point DateParse _) as [p | e];
    [destruct (isNaN (latitude p) || isNaN (longitude p)) |];
    cbn [push console_warn console]; try exact H;
    apply in_or_app; left; exact H.
Qed.

(** X12: a row that is left out for what it holds, a timestamp that is
    refused or a coordinate that is NaN, is reported on the console under
    its line number in the file, the header being line 1: the row after k
    other data rows gives a warning that starts [Skipping row k+2: ]. *)
Theorem skipped_row_is_reported_by_line_number header before r after :
  missing_columns (cells header) = [] ->
  ragged (cells header) r = false ->
  row_point DateParse (cells header) r = None ->
  exists reason,
    In (str "Skipping row " ++ nat_string (length before + 2) ++ str ": "
        ++ reason)
       (snd (parseLines DateParse (header :: before ++ r :: after))).
Proof.
  intros Hmiss Hrag Hnone.
  set (st := for_loop DateParse (cells header) before 1
               {| points := []; console := [] |}).
  assert (W : exists reason,
             In (str "Skipping row " ++ nat_string (length before + 2)
                 ++ str ": " ++ reason)
                (console (loop_body DateParse (cells header)
                            (1 + length before) r st))).
  { unfold loop_body, row_point, ragged in *. rewrite Hrag.
    apply negb_false_iff in Hrag. rewrite Hrag in Hnone.
    replace (1 + length before + 1) with (length before + 2) by lia.
    destruct (make_point DateParse _) as [p | e].
    - destruct (isNaN (latitude p) || isNaN (longitude p)); [| discriminate].
      exists (str "Invalid coordinates"). cbn [console_warn console].
      apply in_or_app. right. left. reflexivity.
    - exists (message e). cbn [console_warn console].
      apply in_or_app. right. left. reflexivity. }
  destruct W as (reason & W). exists reason.
  unfold parseLines. cbn [length nth tl].
  replace (S (length (before ++ r :: after)) <? 2) with false
    by (rewrite length_app; cbn [length]; symmetry; apply Nat.ltb_ge; lia).
  fold (missing_columns (cells header)). rewrite Hmiss. cbn [length Nat.ltb Nat.leb].
  rewrite for_loop_app. cbn [for_loop]. fold st.
  match goal with
  | |- In _ (snd (if ?c then _ else _)) => destruct c
  end; cbn [snd]; apply console_grows; exact W.
Qed.
End Accounting.

Lemma every_row_is_accounted_for_witness :
  parseCSV iso_parse ragged_row_csv
  = (Return (survivors iso_parse (header_cells ragged_row_csv)
               (data_rows ragged_row_csv)), [])
  /\ length (survivors iso_parse (header_cells ragged_row_csv)
               (data_rows ragged_row_csv)) + 0
     + length (filter (ragged (header_cells ragged_row_csv))
                      (data_rows ragged_row_csv))
     = 3.
Proof.
  assert (P : parseCSV iso_parse ragged_row_csv
              = (Return (survivors iso_parse (header_cells ragged_row_csv)
                           (data_rows ragged_row_csv)), []))
    by (vm_compute; reflexivity).
  split; [exact P |].
  exact (every_row_is_accounted_for iso_parse ragged_row_csv _ _ P).
Defined.

Lemma skipped_row_is_reported_by_line_number_witness :
  (missing_columns (cells header_line) = []
   /\ ragged (cells header_line) (nth 1 (data_rows nan_row_csv) []) = false
   /\ row_point iso_parse (cells header_line)
        (nth 1 (data_rows nan_row_csv) []) = None)
  /\ exists reason,
       In (str "Skipping row " ++ nat_string 3 ++ str ": " ++ reason)
          (snd (parseLines iso_parse
                  (header_line :: [nth 0 (data_rows nan_row_csv) []]
                   ++ nth 1 (data_rows nan_row_csv) [] :: []))).
Proof.
  assert (A : missing_columns (cells header_line) = [])
    by (vm_compute; reflexivity).
  assert (B : ragged (cells header_line) (nth 1 (data_rows nan_row_csv) [])
              = false) by (vm_compute; reflexivity).
  assert (C : row_point iso_parse (cells header_line)
                (nth 1 (data_rows nan_row_csv) []) = None)
    by (vm_compute; reflexivity).
  split; [repeat split; assumption |].
  exact (skipped_row_is_reported_by_line_number iso_parse header_line
           [nth 0 (data_rows nan_row_csv) []] _ [] A B C).
Defined.
(** ** More on [createGPXXML] *)

Section SerializerMore.
Variable NumberToString : number -> jsstring.

Lemma element_same_but_speed p q :
  same_but_speed p q -> element NumberToString p = element NumberToString q.
Proof.
  intros (E1 & E2 & E3 & E4 & E5 & E6 & E7). unfold element.
  rewrite E1, E2, E3, E4, E5, E6, E7. reflexivity.
Qed.

(** X13: the document does not depend on the speed over ground: two
    sequences of points that differ in [sog_kts] only give the same
    document. *)
Theorem createGPXXML_ignores_speed pts pts' :
  Forall2 same_but_speed pts pts' ->
  createGPXXML NumberToString pts = createGPXXML NumberToString pts'.
Proof.
  intros H. rewrite !createGPXXML_pieces.
  assert (E : map (element NumberToString) pts
              = map (element NumberToString) pts').
  { induction H as [| p q pts pts' Hpq _ IH]; cbn [map]; [reflexivity |].
    rewrite (element_same_but_speed p q Hpq), IH. reflexivity. }
  rewrite E. reflexivity.
Qed.

Lemma whole_trkpts_no_tag l r :
  no_tag l = true -> whole_trkpts (l ++ r) = whole_trkpts r.
Proof.
  induction l as [| c l IH]; [reflexivity |].
  cbn [no_tag]. intros H. apply andb_prop in H as [Hd Hl].
  change ((c :: l) ++ r) with (c :: (l ++ r)). cbn [whole_trkpts].
  change (c :: (l ++ r)) with ((c :: l) ++ r).
  rewrite (differs_starts_with _ _ r Hd). auto.
Qed.

Lemma whole_trkpts_plain v r :
  Forall (fun x => (x =? 60)%N = false) v ->
  whole_trkpts (v ++ r) = whole_trkpts r.
Proof.
  induction 1 as [| x v Hx _ IH]; [reflexivity |].
  cbn [app whole_trkpts].
  change (str "<trkpt") with [60; 116; 114; 107; 112; 116]%N.
  rewrite starts_with_head by (rewrite N.eqb_sym; exact Hx). exact IH.
Qed.

Lemma read_child_app opening tail v rest :
  plain v = true ->
  read_child opening (60%N :: tail) (opening ++ v ++ (60%N :: tail) ++ rest)
  = Some (v, rest).
Proof.
  intros H. unfold read_child. rewrite strip_prefix_app.
  change ((60%N :: tail) ++ rest) with (60%N :: tail ++ rest).
  rewrite take_until_app by (apply plain_no; auto).
  change (60%N :: tail ++ rest) with ((60%N :: tail) ++ rest).
  rewrite strip_prefix_app. reflexivity.
Qed.

Lemma read_whole_shape a o e t c h l m rest :
  plain a = true -> plain o = true -> plain e = true -> plain t = true ->
  plain c = true -> plain h = true -> plain l = true -> plain m = true ->
  read_whole_trkpt
    ((str "<trkpt lat=" ++ quote) ++ a
     ++ (quote ++ str " lon=" ++ quote) ++ o
     ++ (quote ++ str ">")
     ++ (newline ++ str "<ele>") ++ e ++ str "</ele>"
     ++ (newline ++ str "<time>") ++ t ++ str "</time>"
     ++ (newline ++ str "<cog>") ++ c ++ str "</cog>"
     ++ (newline ++ str "<hdg_true>") ++ h ++ str "</hdg_true>"
     ++ (newline ++ str "<heel>") ++ l ++ str "</heel>"
     ++ (newline ++ str "<trim>") ++ m ++ str "</trim>"
     ++ (newline ++ str "</trkpt>") ++ rest)
  = Some {| lat_text := a; lon_text := o; ele_text := e; time_text := t;
            cog_text := c; hdg_true_text := h; heel_text := l;
            trim_text := m |}.
Proof.
  intros Ha Ho He Ht Hc Hh Hl Hm. unfold read_whole_trkpt.
  rewrite strip_prefix_app.
  change ((quote ++ str " lon=" ++ quote) ++ ?x)
    with (34%N :: (str " lon=" ++ quote) ++ x).
  rewrite take_until_app by (apply plain_no; auto).
  change (34%N :: (str " lon=" ++ quote) ++ ?x)
    with ((quote ++ str " lon=" ++ quote) ++ x).
  rewrite strip_prefix_app.
  change ((quote ++ str ">") ++ ?x) with (34%N :: str ">" ++ x).
  rewrite take_until_app by (apply plain_no; auto).
  change (34%N :: str ">" ++ ?x) with ((quote ++ str ">") ++ x).
  rewrite strip_prefix_app.
  change (str "</ele>") with (60%N :: str "/ele>").
  rewrite read_child_app by assumption.
  change (str "</time>") with (60%N :: str "/time>").
  rewrite read_child_app by assumption.
  change (str "</cog>") with (60%N :: str "/cog>").
  rewrite read_child_app by assumption.
  change (str "</hdg_true>") with (60%N :: str "/hdg_true>").
  rewrite read_child_app by assumption.
  change (str "</heel>") with (60%N :: str "/heel>").
  rewrite read_child_app by assumption.
  change (str "</trim>") with (60%N :: str "/trim>").
  rewrite read_child_app by assumption.
  rewrite strip_prefix_app. reflexivity.
Qed.

Lemma element_whole_shape p rest :
  element NumberToString p ++ rest
  = newline
    ++ (str "<trkpt lat=" ++ quote) ++ NumberToString (latitude p)
    ++ (quote ++ str " lon=" ++ quote) ++ NumberToString (longitude p)
    ++ (quote ++ str ">")
    ++ (newline ++ str "<ele>") ++ NumberToString (hdg_true p) ++ str "</ele>"
    ++ (newline ++ str "<time>") ++ timestamp p ++ str "</time>"
    ++ (newline ++ str "<cog>") ++ NumberToString (cog p) ++ str "</cog>"
    ++ (newline ++ str "<hdg_true>") ++ NumberToString (hdg_true p)
    ++ str "</hdg_true>"
    ++ (newline ++ str "<heel>") ++ NumberToString (heel p) ++ str "</heel>"
    ++ (newline ++ str "<trim>") ++ NumberToString (trim p) ++ str "</trim>"
    ++ (newline ++ str "</trkpt>") ++ rest.
Proof. unfold element. repeat rewrite <- app_assoc. reflexivity. Qed.

Lemma whole_trkpts_element p rest :
  renders_plain NumberToString p = true ->
  whole_trkpts (element NumberToString p ++ rest)
  = written NumberToString p :: whole_trkpts rest.
Proof.
  unfold renders_plain. intros H.
  repeat (apply andb_prop in H as [H ?]).
  rewrite element_whole_shape.
  rewrite whole_trkpts_no_tag by (vm_compute; reflexivity).
  match goal with
  | |- whole_trkpts ?s = _ =>
      assert (R : read_whole_trkpt s = written NumberToString p)
        by (apply read_whole_shape; assumption)
  end.
  change ((str "<trkpt lat=" ++ quote) ++ ?x)
    with (60%N :: (str "trkpt lat=" ++ quote) ++ x) in *.
  cbn [whole_trkpts]. rewrite R.
  change (60%N :: (str "trkpt lat=" ++ quote) ++ ?x)
    with (str "<trkpt" ++ (str " lat=" ++ quote) ++ x).
  rewrite starts_with_app. f_equal.
  repeat first
    [ rewrite whole_trkpts_no_tag by (vm_compute; reflexivity)
    | rewrite whole_trkpts_plain by (apply plain_no; auto) ].
  reflexivity.
Qed.

(** X14: a document can be read back in full: for points that render as
    plain text, the elements read from the document are, in order, the
    latitude, longitude, time, course, heading, heel and trim of the
    points as written, and in every element the text of [ele] is the text
    of [hdg_true]. *)
Theorem document_reads_back_in_full pts :
  Forall (fun p => renders_plain NumberToString p = true) pts ->
  whole_trkpts (createGPXXML NumberToString pts)
  = map (written NumberToString) pts
  /\ Forall (fun e => exists t, e = Some t /\ ele_text t = hdg_true_text t)
            (whole_trkpts (createGPXXML NumberToString pts)).
Proof.
  intros H.
  assert (E : whole_trkpts (createGPXXML NumberToString pts)
              = map (written NumberToString) pts).
  { rewrite createGPXXML_pieces.
    rewrite whole_trkpts_no_tag by (vm_compute; reflexivity).
    induction H as [| p pts Hp _ IH]; cbn [map concat app].
    - vm_compute. reflexivity.
    - rewrite <- app_assoc, whole_trkpts_element by assumption.
      rewrite IH. reflexivity. }
  split; [exact E |]. rewrite E. apply Forall_forall. intros e Hin.
  apply in_map_iff in Hin as (p & <- & _). eexists. split; reflexivity.
Qed.
End SerializerMore.

Lemma createGPXXML_ignores_speed_witness :
  Forall2 same_but_speed sample_points
    (map (fun p => {| timestamp := timestamp p; latitude := latitude p;
                      longitude := longitude p; sog_kts := S754_nan;
                      cog := cog p; hdg_true := hdg_true p; heel := heel p;
                      trim := trim p |}) sample_points)
  /\ createGPXXML Number_toString sample_points
     = createGPXXML Number_toString
         (map (fun p => {| timestamp := timestamp p; latitude := latitude p;
                           longitude := longitude p; sog_kts := S754_nan;
                           cog := cog p; hdg_true := hdg_true p;
                           heel := heel p; trim := trim p |}) sample_points).
Proof.
  assert (H : Forall2 same_but_speed sample_points
                (map (fun p => {| timestamp := timestamp p;
                                  latitude := latitude p;
                                  longitude := longitude p;
                                  sog_kts := S754_nan;
                                  cog := cog p; hdg_true := hdg_true p;
                                  heel := heel p; trim := trim p |})
                     sample_points)).
  { induction sample_points; cbn [map]; constructor; [| assumption].
    repeat split. }
  split; [exact H |].
  exact (createGPXXML_ignores_speed Number_toString _ _ H).
Defined.

Lemma document_reads_back_in_full_witness :
  Forall (fun p => renders_plain Number_toString p = true) sample_points
  /\ whole_trkpts (createGPXXML Number_toString sample_points)
     = map (written Number_toString) sample_points.
Proof.
  assert (H : Forall (fun p => renders_plain Number_toString p = true)
                sample_points).
  { let pts := eval vm_compute in sample_points in
    change sample_points with pts.
    repeat constructor. }
  split; [exact H |].
  exact (proj1 (document_reads_back_in_full Number_toString _ H)).
Defined.
(** ** [convertToGPX] and the handlers *)

Section Orchestrator.
Variable DateParse : jsstring -> option Z.

(** X15: after a conversion that gives a result, the count shown is the
    number of [trkpt] elements of the document in the result, and it is
    one at least (on a host that prints numbers as the reference does). *)
Theorem pointCount_counts_trkpts file st r :
  result (convertToGPX DateParse Number_toString (Some file) st) = Some r ->
  pointCount (convertToGPX DateParse Number_toString (Some file) st)
  = length (trkpt_elements (content r))
  /\ 1 <= pointCount (convertToGPX DateParse Number_toString (Some file) st).
Proof.
  unfold convertToGPX. fold (parse DateParse (text file)).
  destruct (parse DateParse (text file)) as [pts | e] eqn:P; cbn [result];
    [| discriminate].
  intros [= <-]. cbn [pointCount content].
  rewrite (converted_document_trkpts DateParse (text file) pts P), length_map.
  split; [reflexivity |].
  rewrite parse_cases in P. destruct (data_rows (text file)); [discriminate |].
  destruct (missing_columns _); [| discriminate].
  destruct (survivors _ _ _); [discriminate |].
  injection P as <-. cbn [length]. lia.
Qed.

Variable NumberToString : number -> jsstring.

(** a click on the convert button that nothing interrupts does to
    [result], [error] and [pointCount] what [convertToGPX] says, leaves the
    file selected and ends with [converting] false *)
Lemma convert_state c f :
  UI.file c = Some f ->
  UI.state (UI.convert DateParse NumberToString c)
  = convertToGPX DateParse NumberToString (Some f) (UI.state c)
  /\ UI.file (UI.convert DateParse NumberToString c) = Some f
  /\ UI.converting (UI.convert DateParse NumberToString c) = false.
Proof.
  intros Hf. unfold UI.convert, UI.convert_begin, UI.convert_end, convertToGPX.
  rewrite Hf. destruct (fst (parseCSV DateParse (text f)));
    cbn; repeat split; assumption.
Qed.

Lemma error_messages_not_empty csvText e :
  parse DateParse csvText = Throw e -> message e <> [].
Proof.
  rewrite parse_cases. destruct (data_rows csvText).
  { intros [= <-]. discriminate. }
  destruct (missing_columns _).
  - destruct (survivors _ _ _); [| discriminate].
    intros [= <-]. discriminate.
  - intros [= <-]. discriminate.
Qed.

(** X16: after a file is selected and converted, exactly one of the two
    panels is shown: the error panel with the message of the error, or the
    success panel with the number of points and the suggested file name;
    the file stays selected and the convert button is enabled again. *)
Theorem one_panel_after_conversion c f :
  let c' := UI.convert DateParse NumberToString
              (UI.handleFileUpload (Some f) c) in
  UI.selected (UI.render c') = Some (name f)
  /\ UI.convert_disabled (UI.render c') = false
  /\ match parse DateParse (text f) with
     | Return pts =>
         UI.error_panel (UI.render c') = None
         /\ UI.success_panel (UI.render c')
            = Some (length pts, replace_csv (name f))
     | Throw e =>
         UI.error_panel (UI.render c') = Some (message e)
         /\ UI.success_panel (UI.render c') = None
     end.
Proof.
  cbv zeta. unfold UI.convert, UI.convert_begin, UI.convert_end,
    UI.handleFileUpload, UI.render. cbn [UI.file UI.state UI.converting].
  fold (parse DateParse (text f)).
  destruct (parse DateParse (text f)) as [pts | e] eqn:P;
    cbn [UI.file UI.state UI.converting result error pointCount option_map
         filename].
  - repeat split.
  - repeat split.
    pose proof (error_messages_not_empty _ _ P) as N.
    destruct (message e); [contradiction | reflexivity].
Qed.

(** X17: a conversion goes on with the file it was started with.  When
    another file is selected while the first is being read, the result of
    the first conversion is shown all the same, under the name made from
    the first file, while the banner shows the second file. *)
Theorem late_result_is_of_the_first_file c f1 c1 f2 pts :
  UI.convert_begin c = Some (f1, c1) ->
  parse DateParse (text f1) = Return pts ->
  let c' := UI.convert_end DateParse NumberToString f1
              (UI.handleFileUpload (Some f2) c1) in
  UI.selected (UI.render c') = Some (name f2)
  /\ UI.success_panel (UI.render c')
     = Some (length pts, replace_csv (name f1))
  /\ UI.error_panel (UI.render c') = None
  /\ UI.convert_disabled (UI.render c') = false.
Proof.
  intros _ P. cbv zeta. unfold UI.convert_end, UI.handleFileUpload, UI.render.
  unfold parse in P. rewrite P. cbn. repeat split.
Qed.
End Orchestrator.

Lemma pointCount_counts_trkpts_witness :
  (exists r,
      result (convertToGPX iso_parse Number_toString
                (Some {| name := str "track.CSV"; text := two_rows_csv |})
                {| result := None; error := None; pointCount := 0 |})
      = Some r)
  /\ pointCount (convertToGPX iso_parse Number_toString
                   (Some {| name := str "track.CSV"; text := two_rows_csv |})
                   {| result := None; error := None; pointCount := 0 |})
     = 2.
Proof.
  set (file := {| name := str "track.CSV"; text := two_rows_csv |}).
  set (st := {| result := None; error := None; pointCount := 0 |}).
  destruct (result (convertToGPX iso_parse Number_toString (Some file) st))
    as [r |] eqn:R; [| vm_compute in R; discriminate].
  split; [eauto |].
  destruct (pointCount_counts_trkpts iso_parse file st r R) as [E _].
  rewrite E. vm_compute in R. injection R as <-. vm_compute. reflexivity.
Defined.

Lemma late_result_is_of_the_first_file_witness :
  let f1 := {| name := str "first.csv"; text := two_rows_csv |} in
  let f2 := {| name := str "second.csv"; text := header_line |} in
  let c := {| UI.file := Some f1; UI.converting := false;
              UI.state := {| result := None; error := None;
                             pointCount := 0 |} |} in
  exists c1,
    (UI.convert_begin c = Some (f1, c1)
     /\ parse iso_parse (text f1) = Return sample_points)
    /\ UI.selected
         (UI.render (UI.convert_end iso_parse Number_toString f1
                       (UI.handleFileUpload (Some f2) c1)))
       = Some (str "second.csv")
    /\ UI.success_panel
         (UI.render (UI.convert_end iso_parse Number_toString f1
                       (UI.handleFileUpload (Some f2) c1)))
       = Some (2, str "first_converted.gpx").
Proof.
  intros f1 f2 c.
  destruct (UI.convert_begin c) as [[f c1] |] eqn:B;
    [| vm_compute in B; discriminate].
  assert (F : f = f1) by (vm_compute in B; injection B as <- _; reflexivity).
  subst f. exists c1.
  assert (P : parse iso_parse (text f1) = Return sample_points)
    by (vm_compute; reflexivity).
  split; [split; [reflexivity | exact P] |].
  destruct (late_result_is_of_the_first_file iso_parse Number_toString
              c f1 c1 f2 sample_points B P) as (S1 & S2 & _).
  split; [exact S1 | exact S2].
Defined.

